(** * passport-cas: the CAS strategy of lib/passport-cas.js

    A shallow embedding of the [CasStrategy] constructor and of
    [CasStrategy.prototype.authenticate], [logout] and [getProxyTicket].

    Modelling choices.
    - JavaScript values are the inductive [value]; numbers are integers
      ([Z]): the only arithmetic of the module is the minute token.
    - A JavaScript object is an association list in property-creation
      order ([obj]); only own properties are modelled. [get] of an absent
      property is [VUndef], [set] overwrites in place or appends, [delete]
      removes the property, and [for (k in o)] walks [keys]. (JavaScript
      enumerates integer-like property names first; no statement below
      depends on the order in which the attributes are copied.)
    - The strategy's calls to passport ([redirect], [fail], [error],
      [success]) and to its collaborators ([cas.validate], the verify
      callback, [cas.getProxyTicket]) become the constructors of [action];
      a callback is the continuation stored in the constructor.
    - Node's [url.parse] / [url.format] and the string-to-number coercion of
      [!=] are library code outside the module; they are Section variables.
      [encodeURIComponent] and the two regular expressions of the retry
      redirect are written out over strings of bytes. *)

From Stdlib Require Import ZArith List String Ascii Bool Lia DecimalString.
Import ListNotations.
Local Open Scope string_scope.
Local Open Scope Z_scope.
Set Warnings "-register-all".

(** ** JavaScript values and objects *)

Inductive value : Type :=
| VUndef
| VNull
| VBool (b : bool)
| VNum (n : Z)
| VStr (s : string)
| VArr (l : list value)
| VObj (o : list (string * value)).

Definition obj : Type := list (string * value).

(** [ToBoolean]. *)
Definition truthy (v : value) : bool :=
  match v with
  | VUndef | VNull => false
  | VBool b => b
  | VNum n => negb (n =? 0)
  | VStr s => negb (String.eqb s "")
  | VArr _ | VObj _ => true
  end.

(** [a || b]. *)
Definition js_or (a b : value) : value := if truthy a then a else b.

(** [Array.isArray(v)]. *)
Definition isArray (v : value) : bool :=
  match v with VArr _ => true | _ => false end.

(** [typeof v == 'object']: objects, arrays and [null]. *)
Definition typeof_object (v : value) : bool :=
  match v with VNull | VArr _ | VObj _ => true | _ => false end.

Fixpoint lookup (k : string) (o : obj) : option value :=
  match o with
  | [] => None
  | (k', v) :: o' => if String.eqb k k' then Some v else lookup k o'
  end.

Definition get (k : string) (o : obj) : value :=
  match lookup k o with Some v => v | None => VUndef end.

Fixpoint set (k : string) (v : value) (o : obj) : obj :=
  match o with
  | [] => [(k, v)]
  | (k', v') :: o' =>
      if String.eqb k k' then (k', v) :: o' else (k', v') :: set k v o'
  end.

Fixpoint delete (k : string) (o : obj) : obj :=
  match o with
  | [] => []
  | (k', v') :: o' =>
      if String.eqb k k' then delete k o' else (k', v') :: delete k o'
  end.

Definition keys (o : obj) : list string := map fst o.

(** [v[0]]: the first element of an array, the property "0" of an object,
    [undefined] on the other values the module meets. *)
Definition index0 (v : value) : value :=
  match v with
  | VArr (x :: _) => x
  | VObj o => get "0" o
  | _ => VUndef
  end.

(** Property read [v.k] on a value that may not be an object. *)
Definition getProp (k : string) (v : value) : value :=
  match v with VObj o => get k o | _ => VUndef end.

(** ** Configuration: the fields the constructor stores *)

Record options : Type := mkOptions {
  casURL : string;
  pgtURL : option string;
  propertyMap : option (list (string * string));
  sessionKey : option string;
  passReqToCallback : bool
}.

Record CasStrategy : Type := mkStrategy {
  casBaseUrl : string;
  casPgtUrl : option string;
  casPropertyMap : list (string * string);
  casSessionKey : string;
  _passReqToCallback : bool
}.

(** [s || d] on an optional string: the empty string is falsy. *)
Definition str_or (s : option string) (d : string) : string :=
  match s with
  | Some x => if String.eqb x "" then d else x
  | None => d
  end.

(** [a || b] on optional strings, the result still optional. *)
Definition opt_or (a b : option string) : option string :=
  match a with
  | Some x => if String.eqb x "" then b else a
  | None => b
  end.

Definition str_truthy (s : option string) : bool :=
  match s with
  | Some x => negb (String.eqb x "")
  | None => false
  end.

(** [new CasStrategy(options, verify)], with a verify callback given:
    [None] is the [TypeError] for a missing [casURL]. *)
Definition newCasStrategy (o : options) : option CasStrategy :=
  if String.eqb (casURL o) "" then None
  else Some {|
    casBaseUrl := casURL o;
    casPgtUrl := if str_truthy (pgtURL o) then pgtURL o else None;
    casPropertyMap := match propertyMap o with Some m => m | None => [] end;
    casSessionKey := str_or (sessionKey o) "cas";
    _passReqToCallback := passReqToCallback o |}.

(** [self.casPropertyMap[key] || key]. *)
Fixpoint pm_lookup (k : string) (m : list (string * string)) : option string :=
  match m with
  | [] => None
  | (k', a) :: m' => if String.eqb k k' then Some a else pm_lookup k m'
  end.

Definition mappedKey (m : list (string * string)) (key : string) : string :=
  str_or (pm_lookup key m) key.

(** ** The profile mapper (the body of the validation callback) *)

(** What the validation client hands over in [extended]. *)
Record extended : Type := mkExtended {
  ext_id : value;
  ext_PGTIOU : value;
  ext_attributes : obj
}.

(** The profile literal. *)
Definition initProfile (username : value) (ext : extended) : obj :=
  [ ("provider", VStr "CAS");
    ("id", js_or (ext_id ext) username);
    ("displayName", js_or (get "displayName" (ext_attributes ext)) username);
    ("name", VObj [ ("familyName", VNull);
                    ("givenName", VNull);
                    ("middleName", VNull) ]);
    ("emails", VArr []) ].

(** The loop state: the profile being filled and the attributes left. *)
Definition mstate : Type := (obj * obj)%type.

(** One turn of the inner loop over [profile.name]. *)
Definition mapNameField (pm : list (string * string)) (st : mstate)
    (subKey : string) : mstate :=
  let '(profile, attributes) := st in
  let mk := mappedKey pm subKey in
  let value := get mk attributes in
  let field := if isArray value then index0 value else value in
  let name' :=
    match get "name" profile with
    | VObj n => VObj (set subKey field n)
    | other => other
    end in
  (set "name" name' profile, delete mk attributes).

(** [{'value': v, 'type': 'default'}]. *)
Definition emailRecord (v : value) : value :=
  VObj [ ("value", v); ("type", VStr "default") ].

(** [profile.emails.push(x)]. *)
Definition push (arr : value) (x : value) : value :=
  match arr with VArr l => VArr (l ++ [x]) | other => other end.

(** The [emails] branch, as a function of the looked-up attribute value and
    of the current [profile.emails]. *)
Definition mapEmailsValue (current emails : value) : value :=
  match emails with
  | VArr l =>
      if typeof_object (index0 emails) then emails
      else fold_left (fun acc e => push acc (emailRecord e)) l current
  | _ => VArr [emails]
  end.

(** The [name] branch: the inner loop over the fields of [profile.name]. *)
Definition mapName (pm : list (string * string)) (st : mstate) : mstate :=
  match get "name" (fst st) with
  | VObj n => fold_left (mapNameField pm) (keys n) st
  | _ => st
  end.

(** The [emails] branch. *)
Definition mapEmails (pm : list (string * string)) (st : mstate) : mstate :=
  let '(profile, attributes) := st in
  let mk := str_or (pm_lookup "emails" pm) "emails" in
  let emails := get mk attributes in
  (set "emails" (mapEmailsValue (get "emails" profile) emails) profile,
   delete mk attributes).

(** The last branch: every other field of the profile. *)
Definition mapOther (pm : list (string * string)) (st : mstate)
    (key : string) : mstate :=
  let '(profile, attributes) := st in
  let mk := mappedKey pm key in
  let value := get mk attributes in
  let profile' :=
    if isArray value then set key (index0 value) profile
    else if truthy value then set key value profile
    else profile in
  (profile', delete mk attributes).

(** One turn of the outer loop [for (var key in profile)]. *)
Definition mapKey (pm : list (string * string)) (st : mstate)
    (key : string) : mstate :=
  if String.eqb key "name" then mapName pm st
  else if String.eqb key "emails" then mapEmails pm st
  else mapOther pm st key.

(** [for (var key in attributes) profile[key] = attributes[key]]. *)
Definition copyRemaining (profile attributes : obj) : obj :=
  fold_left (fun p key => set key (get key attributes) p)
            (keys attributes) profile.

(** The attributes left when the mapping loop ends. *)
Definition remaining (pm : list (string * string)) (username : value)
    (ext : extended) : obj :=
  let p0 := initProfile username ext in
  snd (fold_left (mapKey pm) (keys p0) (p0, ext_attributes ext)).

(** The profile handed to the verify callback. *)
Definition buildProfile (pm : list (string * string)) (username : value)
    (ext : extended) : obj :=
  let p0 := initProfile username ext in
  let '(profile, attributes) :=
    fold_left (mapKey pm) (keys p0) (p0, ext_attributes ext) in
  copyRemaining profile attributes.

(** ** Strings: the builtins the module calls *)

(** [encodeURIComponent] over a string of bytes (the UTF-8 encoding of the
    JavaScript string): the unreserved marks and the alphanumerics stay,
    every other byte becomes [%XX] in upper-case hexadecimal. *)
Definition isDigit (c : ascii) : bool :=
  let n := nat_of_ascii c in (48 <=? n)%nat && (n <=? 57)%nat.

Definition isAlpha (c : ascii) : bool :=
  let n := nat_of_ascii c in
  ((65 <=? n)%nat && (n <=? 90)%nat) || ((97 <=? n)%nat && (n <=? 122)%nat).

(** The class [\w]. *)
Definition isWord (c : ascii) : bool :=
  isAlpha c || isDigit c || Ascii.eqb c "_".

(** The class [[\w.-]]. *)
Definition isTicketChar (c : ascii) : bool :=
  isWord c || Ascii.eqb c "." || Ascii.eqb c "-".

Definition isUnreserved (c : ascii) : bool :=
  isAlpha c || isDigit c ||
  existsb (Ascii.eqb c) ["-"; "_"; "."; "!"; "~"; "*"; "'"; "("; ")"]%char.

Definition hexDigit (n : nat) : ascii :=
  if (n <? 10)%nat then ascii_of_nat (48 + n) else ascii_of_nat (55 + n).

Definition hexValue (c : ascii) : option nat :=
  let n := nat_of_ascii c in
  if isDigit c then Some (n - 48)%nat
  else if (65 <=? n)%nat && (n <=? 70)%nat then Some (n - 55)%nat
  else if (97 <=? n)%nat && (n <=? 102)%nat then Some (n - 87)%nat
  else None.

Fixpoint encodeURIComponent (s : string) : string :=
  match s with
  | EmptyString => EmptyString
  | String c s' =>
      if isUnreserved c then String c (encodeURIComponent s')
      else
        let n := nat_of_ascii c in
        String "%" (String (hexDigit (n / 16)) (String (hexDigit (n mod 16))
          (encodeURIComponent s')))
  end.

(** [decodeURIComponent]; [None] is the [URIError] of a malformed escape. *)
Fixpoint decodeURIComponent (s : string) : option string :=
  match s with
  | EmptyString => Some EmptyString
  | String "%" (String h (String l s')) =>
      match hexValue h, hexValue l, decodeURIComponent s' with
      | Some a, Some b, Some r => Some (String (ascii_of_nat (16 * a + b)) r)
      | _, _, _ => None
      end
  | String "%" _ => None
  | String c s' =>
      match decodeURIComponent s' with
      | Some r => Some (String c r)
      | None => None
      end
  end.

(** The decimal text of an integer, as [+] gives it for a number. *)
Definition numberToString (n : Z) : string :=
  NilZero.string_of_int (Z.to_int n).

(** [s] without the prefix [p], when it starts with it. *)
Fixpoint stripPrefix (p s : string) : option string :=
  match p, s with
  | EmptyString, _ => Some s
  | String a p', String b s' =>
      if Ascii.eqb a b then stripPrefix p' s' else None
  | String _ _, EmptyString => None
  end.

(** The longest prefix of [s] in the class [f], and the rest. *)
Fixpoint span (f : ascii -> bool) (s : string) : string * string :=
  match s with
  | EmptyString => (EmptyString, EmptyString)
  | String c s' =>
      if f c then let '(a, b) := span f s' in (String c a, b)
      else (EmptyString, s)
  end.

(** [/_cas_retry=\d+&?/] matched at the start of [s]: what follows the
    match. *)
Definition matchRetry (s : string) : option string :=
  match stripPrefix "_cas_retry=" s with
  | Some r =>
      match span isDigit r with
      | (EmptyString, _) => None
      | (_, String "&" rest) => Some rest
      | (_, rest) => Some rest
      end
  | None => None
  end.

(** [s.replace(/_cas_retry=\d+&?/, '')]: the leftmost match is removed. *)
Fixpoint removeRetry (s : string) : string :=
  match matchRetry s with
  | Some rest => rest
  | None =>
      match s with
      | EmptyString => EmptyString
      | String c s' => String c (removeRetry s')
      end
  end.

(** [/([?&])ticket=[\w.-]+/] matched at the start of [s]: the captured
    separator and what follows the match. *)
Definition matchTicket (s : string) : option (ascii * string) :=
  match s with
  | String c r =>
      if Ascii.eqb c "?" || Ascii.eqb c "&" then
        match stripPrefix "ticket=" r with
        | Some t =>
            match span isTicketChar t with
            | (EmptyString, _) => None
            | (_, rest) => Some (c, rest)
            end
        | None => None
        end
      else None
  | EmptyString => None
  end.

(** [s.replace(/([?&])ticket=[\w.-]+/, '$1_cas_retry=' + token)]. *)
Fixpoint replaceTicket (token : string) (s : string) : string :=
  match matchTicket s with
  | Some (c, rest) => String c ("_cas_retry=" ++ token ++ rest)
  | None =>
      match s with
      | EmptyString => EmptyString
      | String c s' => String c (replaceTicket token s')
      end
  end.

(** The URL of the retry redirect. *)
Definition retryUrl (u : string) (token : Z) : string :=
  replaceTicket (numberToString token) (removeRetry u).

(** [Math.round(date.getTime() / 60000)] for a clock reading in
    milliseconds. [Math.round] is [floor (x + 1/2)]; the quotient is a
    multiple of 1/60000, far coarser than a double's precision at this
    magnitude, so the integer formula is exact. *)
Definition retryToken (now : Z) : Z := (now + 30000) / 60000.

(** ** Requests, URLs and the calls the strategy makes *)

(** The request fields the module reads. Header names are lower-case, as
    Node delivers them; [query] is the host framework's [req.query],
    [None] when the host sets none;
    [session] is [None] when no session middleware is in use. *)
Record request : Type := mkRequest {
  _passport : bool;
  originalUrl : option string;
  url : string;
  headers : list (string * string);
  protocol : option string;
  query : option obj;
  session : option obj
}.

(** What [url.parse(u, true)] returns, as far as the module reads it. *)
Record parsedUrl : Type := mkParsed {
  host : option string;
  pathname : option string;
  parsedQuery : obj
}.

(** The object handed to [url.format]. *)
Record urlObject : Type := mkUrlObject {
  fmt_protocol : string;
  fmt_host : option string;
  fmt_pathname : option string;
  fmt_query : obj
}.

(** [new Error(msg)]. *)
Definition newError (msg : string) : value := VObj [("message", VStr msg)].

(** The arguments of the validation callback, and the clock reading taken
    inside it. *)
Record validation : Type := mkValidation {
  v_err : value;
  v_username : value;
  v_extended : extended;
  v_now : Z
}.

(** One call made by [authenticate]; the callbacks it passes are the
    continuations. [Throw] is an uncaught [TypeError]. *)
Inductive action : Type :=
| Error (err : value)
| Redirect (location : string) (status : Z)
| Fail (info : value)
| Success (user info : value)
| Throw (msg : string)
| Validate (ticket : value) (service : string) (callback : validation -> action)
| Verify (session' : obj) (withReq : bool) (username : value) (profile : obj)
         (verified : value -> value -> value -> action).

(** [String(v)], used when [!=] compares an object with a number. *)
Fixpoint toString (v : value) : string :=
  match v with
  | VUndef => "undefined"
  | VNull => "null"
  | VBool true => "true"
  | VBool false => "false"
  | VNum n => numberToString n
  | VStr s => s
  | VArr l =>
      (fix join (l : list value) : string :=
         match l with
         | [] => ""
         | x :: l' =>
             let e := match x with
                      | VUndef | VNull => ""
                      | _ => toString x
                      end in
             match l' with
             | [] => e
             | _ => e ++ "," ++ join l'
             end
         end) l
  | VObj _ => "[object Object]"
  end.

(** The completion function handed to the verify callback. *)
Definition verified (err user info : value) : action :=
  if truthy err then Error err
  else if negb (truthy user) then Fail info
  else Success user info.

Section Strategy.

(** Node's [url.parse(_, true)] and [url.format]. *)
Variable url_parse : string -> parsedUrl.
Variable url_format : urlObject -> string.

(** ECMAScript's StringToNumber: [Some n] when the text denotes the
    integer [n], [None] when it denotes no number or a number that is not
    an integer. *)
Variable StringToNumber : string -> option Z.

Variable self : CasStrategy.

(** [v != n] for a number [n]. *)
Definition looseNeqNumber (v : value) (n : Z) : bool :=
  let viaString (s : string) :=
    match StringToNumber s with
    | Some m => negb (m =? n)
    | None => true
    end in
  match v with
  | VUndef | VNull => true
  | VBool b => negb ((if b then 1 else 0) =? n)
  | VNum m => negb (m =? n)
  | VStr s => viaString s
  | VArr _ | VObj _ => viaString (toString v)
  end.

Definition header (req : request) (name : string) : option string :=
  pm_lookup name (headers req).

(** [req.originalUrl || req.url]. *)
Definition requestUrl (req : request) : string :=
  str_or (originalUrl req) (url req).

(** The object given to [url.format]: the current URL minus the ticket. *)
Definition serviceParts (req : request) : urlObject :=
  let reqURL := url_parse (requestUrl req) in
  {| fmt_protocol :=
       str_or (opt_or (header req "x-forwarded-proto")
                 (opt_or (header req "x-proxied-protocol") (protocol req)))
              "http";
     fmt_host :=
       opt_or (header req "x-forwarded-host")
         (opt_or (header req "host") (host reqURL));
     fmt_pathname :=
       opt_or (header req "x-proxied-request-uri") (pathname reqURL);
     fmt_query := delete "ticket" (parsedQuery reqURL) |}.

Definition service (req : request) : string :=
  url_format (serviceParts req).

(** [reqURL.query['ticket']]. *)
Definition ticketOf (req : request) : value :=
  get "ticket" (parsedQuery (url_parse (requestUrl req))).

(** The session writes of a successful validation. *)
Definition storeSession (s : obj) (ext : extended) : obj :=
  let s1 := set (casSessionKey self) (VObj []) s in
  if str_truthy (casPgtUrl self) then
    match get (casSessionKey self) s1 with
    | VObj entry =>
        set (casSessionKey self) (VObj (set "PGTIOU" (ext_PGTIOU ext) entry)) s1
    | _ => s1
    end
  else s1.

(** The callback given to [cas.validate]. *)
Definition validated (req : request) (r : validation) : action :=
  if truthy (v_err r) then
    let token := retryToken (v_now r) in
    match query req with
    | None => Throw "TypeError"
    | Some q =>
        if looseNeqNumber (get "_cas_retry" q) token then
          Redirect (retryUrl (requestUrl req) token) 307
        else Fail (v_err r)
    end
  else
    match session req with
    | None => Throw "TypeError"
    | Some s =>
        Verify (storeSession s (v_extended r))
               (_passReqToCallback self)
               (v_username r)
               (buildProfile (casPropertyMap self) (v_username r) (v_extended r))
               verified
    end.

Definition authenticate (req : request) : action :=
  if negb (_passport req) then
    Error (newError "passport.initialize() middleware not in use")
  else
    let ticket := ticketOf req in
    let service := service req in
    if negb (truthy ticket) then
      Redirect (casBaseUrl self ++ "/login?service=" ++ encodeURIComponent service) 307
    else Validate ticket service (validated req).

(** ** The proxy ticket broker *)

(** [Done args] is the call [done(args)]; [ProxyExchange] is the call of
    the CAS client's [getProxyTicket], with its callback. *)
Inductive proxyAction : Type :=
| Done (args : list value)
| ProxyExchange (pgtiou : value) (targetService : string)
                (callback : value -> value -> proxyAction).

Definition NoSession : value := newError "Session is not found".
Definition NotAuthenticated : value :=
  newError "User is not authenticated with CAS".
Definition MissingProxyGrant : value :=
  newError "PGTIOU token not found. Make sure pgtURL option is correct, and the CAS server allows proxies.".

Definition getProxyTicket (req : request) (targetService : string) : proxyAction :=
  let '(err, pgtiou) :=
    match session req with
    | None => (NoSession, VUndef)
    | Some s =>
        if negb (truthy (get (casSessionKey self) s)) then
          (NotAuthenticated, VUndef)
        else
          let pgtiou := getProp "PGTIOU" (get (casSessionKey self) s) in
          if negb (truthy pgtiou) then (MissingProxyGrant, VUndef)
          else (VUndef, pgtiou)
    end in
  if truthy err then Done [err]
  else ProxyExchange pgtiou targetService (fun err PT => Done [err; PT]).

End Strategy.

(** ** A plain instance of the library functions

    Enough of [url.parse], [url.format] and StringToNumber to run the
    strategy on request targets of the form [path?k=v&k=v] without escapes:
    it shows that the statements below apply to concrete requests. *)

(** [s] up to the first [c], and what follows it. *)
Fixpoint cut (c : ascii) (s : string) : string * option string :=
  match s with
  | EmptyString => (EmptyString, None)
  | String a s' =>
      if Ascii.eqb a c then (EmptyString, Some s')
      else let '(x, y) := cut c s' in (String a x, y)
  end.

Fixpoint splitOn (fuel : nat) (c : ascii) (s : string) : list string :=
  match fuel with
  | O => [s]
  | S fuel' =>
      match cut c s with
      | (x, Some rest) => x :: splitOn fuel' c rest
      | (x, None) => [x]
      end
  end.

(** A repeated key collects its values in an array. *)
Definition addParam (q : obj) (kv : string) : obj :=
  if String.eqb kv "" then q
  else
    let '(k, v) := cut "=" kv in
    let v := VStr (match v with Some x => x | None => "" end) in
    match lookup k q with
    | None => set k v q
    | Some (VArr l) => set k (VArr (l ++ [v])) q
    | Some old => set k (VArr [old; v]) q
    end.

(** What follows [http://] or [https://] in an absolute URL. *)
Definition afterScheme (u : string) : option string :=
  match stripPrefix "https://" u with
  | Some r => Some r
  | None => stripPrefix "http://" u
  end.

Definition plainParse (u : string) : parsedUrl :=
  let '(h, target) :=
    match afterScheme u with
    | Some r =>
        let '(a, b) := cut "/" r in
        (Some a, match b with Some p => String "/" p | None => "" end)
    | None => (None, u)
    end in
  let '(path, qs) := cut "?" target in
  {| host := h;
     pathname := Some path;
     parsedQuery :=
       match qs with
       | Some q => fold_left addParam (splitOn (String.length q) "&" q) []
       | None => []
       end |}.

Fixpoint plainQuery (q : obj) : string :=
  match q with
  | [] => ""
  | (k, v) :: q' =>
      let one := k ++ "=" ++ toString v in
      match q' with
      | [] => one
      | _ => one ++ "&" ++ plainQuery q'
      end
  end.

Definition plainFormat (o : urlObject) : string :=
  fmt_protocol o ++ "://"
  ++ match fmt_host o with Some h => h | None => "" end
  ++ match fmt_pathname o with Some p => p | None => "" end
  ++ match fmt_query o with [] => "" | q => "?" ++ plainQuery q end.

(** Decimal digits only. *)
Fixpoint decimalValue (acc : Z) (s : string) : option Z :=
  match s with
  | EmptyString => Some acc
  | String c s' =>
      if isDigit c then decimalValue (10 * acc + Z.of_nat (nat_of_ascii c - 48)) s'
      else None
  end.

Definition plainToNumber (s : string) : option Z := decimalValue 0 s.

(** The request [req] arriving at the URL [u] instead. *)
Definition withUrl (req : request) (u : string) : request :=
  {| _passport := _passport req;
     originalUrl := Some u;
     url := u;
     headers := headers req;
     protocol := protocol req;
     query := query req;
     session := session req |}.

(** Which calls an action is. *)
Definition isRedirect (a : action) : bool :=
  match a with Redirect _ _ => true | _ => false end.

Definition callsValidate (a : action) : bool :=
  match a with Validate _ _ _ => true | _ => false end.

Definition callsVerify (a : action) : bool :=
  match a with Verify _ _ _ _ _ => true | _ => false end.

Definition callsExchange (a : proxyAction) : bool :=
  match a with ProxyExchange _ _ _ => true | Done _ => false end.

(** ** The mapping loop in closed form

    The loop visits the fields in the order the profile literal lists them,
    and each turn deletes the attribute it read. *)

Definition fieldOrder : list string :=
  ["provider"; "id"; "displayName";
   "familyName"; "givenName"; "middleName"; "emails"].

Definition nameFields : list string :=
  ["familyName"; "givenName"; "middleName"].

(** The fields visited before [f]. *)
Fixpoint takeUntil (f : string) (l : list string) : list string :=
  match l with
  | [] => []
  | x :: l' => if String.eqb x f then [] else x :: takeUntil f l'
  end.

(** The attribute names consumed before the turn of [f]. *)
Definition consumedBefore (pm : list (string * string)) (f : string)
  : list string :=
  map (mappedKey pm) (takeUntil f fieldOrder).

Definition deleteAll (ks : list string) (a : obj) : obj :=
  fold_left (fun a k => delete k a) ks a.

(** The attribute value the turn of [f] reads. *)
Definition attributeRead (pm : list (string * string)) (a : obj) (f : string)
  : value :=
  get (mappedKey pm f) (deleteAll (consumedBefore pm f) a).

(** What the [name] branch stores for an attribute value. *)
Definition firstOrSelf (v : value) : value :=
  if isArray v then index0 v else v.

(** What the last branch leaves in a field holding [old]. *)
Definition otherValue (old v : value) : value :=
  if isArray v then index0 v else if truthy v then v else old.

Definition mappedProfile (pm : list (string * string)) (username : value)
    (ext : extended) : obj :=
  let a := ext_attributes ext in
  [ ("provider", otherValue (VStr "CAS") (attributeRead pm a "provider"));
    ("id", otherValue (js_or (ext_id ext) username) (attributeRead pm a "id"));
    ("displayName",
       otherValue (js_or (get "displayName" a) username)
                  (attributeRead pm a "displayName"));
    ("name", VObj [ ("familyName", firstOrSelf (attributeRead pm a "familyName"));
                    ("givenName", firstOrSelf (attributeRead pm a "givenName"));
                    ("middleName", firstOrSelf (attributeRead pm a "middleName")) ]);
    ("emails", mapEmailsValue (VArr []) (attributeRead pm a "emails")) ].

(** A scalar is a value whose [typeof] is not ['object']; a structured
    record is an object. *)
Definition isScalar (v : value) : bool := negb (typeof_object v).

Definition isRecord (v : value) : bool :=
  match v with VObj _ => true | _ => false end.

(** ** Request targets as a path and a list of parameters *)

Definition isSep (c : ascii) : bool :=
  Ascii.eqb c "?" || Ascii.eqb c "&" || Ascii.eqb c "=".

Fixpoint allChars (f : ascii -> bool) (s : string) : bool :=
  match s with
  | EmptyString => true
  | String c s' => f c && allChars f s'
  end.

(** No [?], [&] or [=] in [s]. *)
Definition noSep (s : string) : bool := allChars (fun c => negb (isSep c)) s.

Fixpoint endsWith (suffix s : string) : bool :=
  String.eqb s suffix
  || match s with
     | EmptyString => false
     | String _ s' => endsWith suffix s'
     end.

Definition renderParam (p : string * string) : string :=
  fst p ++ "=" ++ snd p.

Fixpoint renderQuery (ps : list (string * string)) : string :=
  match ps with
  | [] => ""
  | p :: ps' =>
      match ps' with
      | [] => renderParam p
      | _ => renderParam p ++ "&" ++ renderQuery ps'
      end
  end.

Definition renderUrl (path : string) (ps : list (string * string)) : string :=
  path ++ "?" ++ renderQuery ps.

(** A parameter written without separators in its name and value, whose
    name does not end in "_cas_retry". *)
Definition plainParam (p : string * string) : bool :=
  noSep (fst p) && noSep (snd p) && negb (endsWith "_cas_retry" (fst p)).

(** A plain parameter other than the ticket. *)
Definition otherParam (p : string * string) : bool :=
  plainParam p && negb (String.eqb (fst p) "ticket").

(** A non-empty run of characters of the class [f]. *)
Definition runOf (f : ascii -> bool) (s : string) : bool :=
  negb (String.eqb s "") && allChars f s.

(** No [?] or [&] in [s]. *)
Definition noAmp (s : string) : bool :=
  allChars (fun c => negb (Ascii.eqb c "?" || Ascii.eqb c "&")) s.

(** [s] up to its first separator, the separator and the rest. *)
Fixpoint cutSep (s : string) : string * option (ascii * string) :=
  match s with
  | EmptyString => (EmptyString, None)
  | String c s' =>
      if isSep c then (EmptyString, Some (c, s'))
      else let '(a, r) := cutSep s' in (String c a, r)
  end.

(** No match of [M] starts inside [pre] in the text [pre ++ suf]. *)
Fixpoint unmatched {A : Type} (M : string -> option A) (pre suf : string)
  : Prop :=
  match pre with
  | EmptyString => True
  | String c pre' => M (pre ++ suf) = None /\ unmatched M pre' suf
  end.

(** ** Concrete requests and validation results *)

Definition demoStrategy : CasStrategy :=
  {| casBaseUrl := "https://signin.example.com/cas";
     casPgtUrl := None;
     casPropertyMap := [];
     casSessionKey := "cas";
     _passReqToCallback := false |}.

Definition demoRequest (u : string) (q : obj) : request :=
  {| _passport := true;
     originalUrl := Some u;
     url := u;
     headers := [("host", "app.example.com")];
     protocol := Some "https";
     query := Some q;
     session := Some [("cas", VObj [("PGTIOU", VStr "PGTIOU-1-old")])] |}.

Definition demoValidation (attrs : obj) : validation :=
  {| v_err := VUndef;
     v_username := VStr "jane";
     v_extended := mkExtended VUndef (VStr "PGTIOU-2-new") attrs;
     v_now := 1710000000000 |}.

Definition demoFailure (now : Z) : validation :=
  {| v_err := newError "ticket not recognized";
     v_username := VUndef;
     v_extended := mkExtended VUndef VUndef [];
     v_now := now |}.

Ltac not_in := cbv; intuition discriminate.

(** ** The constructor with its argument shuffle *)

(** The first argument of [new CasStrategy(options, verify)]: an options
    object, a function (the verify callback given alone), or nothing. *)
Inductive firstArg : Type :=
| ArgOptions (o : options)
| ArgFunction
| ArgUndefined.

(** The object [{}]: every option missing. *)
Definition noOptions : options :=
  {| casURL := ""; pgtURL := None; propertyMap := None;
     sessionKey := None; passReqToCallback := false |}.

Inductive constructed : Type :=
| TypeError (msg : string)
| Built (s : CasStrategy).

(** [verify] tells whether a second argument was given. A function in the
    first place becomes the verify callback and the options are dropped. *)
Definition construct (arg : firstArg) (verify : bool) : constructed :=
  let '(options, verify) :=
    match arg with
    | ArgFunction => (noOptions, true)
    | ArgOptions o => (o, verify)
    | ArgUndefined => (noOptions, verify)
    end in
  if negb verify then TypeError "CasStrategy requires a verify callback"
  else
    match newCasStrategy options with
    | None => TypeError "CasStrategy requires a casURL option"
    | Some s => Built s
    end.

(** ** One request played to its end *)

(** The calls a request makes, in order. *)
Inductive event : Type :=
| CallError (err : value)
| CallRedirect (location : string) (status : Z)
| CallFail (info : value)
| CallSuccess (user info : value)
| Uncaught (msg : string)
| CallValidate (ticket : value) (service : string)
| CallVerify (withReq : bool) (username : value) (profile : obj).

(** [play r d a]: the calls of [a] when the validation client answers [r]
    and the verify callback completes with [d = (err, user, info)]. *)
Fixpoint play (r : validation) (d : value * value * value) (a : action)
  : list event :=
  match a with
  | Error e => [CallError e]
  | Redirect l st => [CallRedirect l st]
  | Fail i => [CallFail i]
  | Success u i => [CallSuccess u i]
  | Throw m => [Uncaught m]
  | Validate t svc k => CallValidate t svc :: play r d (k r)
  | Verify _ b u p k =>
      CallVerify b u p :: play r d (k (fst (fst d)) (snd (fst d)) (snd d))
  end.

Definition isRedirectCall (e : event) : bool :=
  match e with CallRedirect _ _ => true | _ => false end.

Definition isVerifyCall (e : event) : bool :=
  match e with CallVerify _ _ _ => true | _ => false end.

Definition isValidateCall (e : event) : bool :=
  match e with CallValidate _ _ => true | _ => false end.

(** The calls that end a request: passport's four actions, or a throw. *)
Definition isFinal (e : event) : bool :=
  match e with
  | CallError _ | CallRedirect _ _ | CallFail _ | CallSuccess _ _
  | Uncaught _ => true
  | CallValidate _ _ | CallVerify _ _ _ => false
  end.

Definition countCalls (f : event -> bool) (l : list event) : nat :=
  List.length (filter f l).

(** ** Logout *)

(** The calls of [logout(req, res, returnUrl)]: [req.logout()], then
    [cas.logout] with the arguments that follow [req, res]. *)
Inductive logoutCall : Type :=
| ReqLogout
| CasLogout (more : list value).

Definition logout (returnUrl : option string) : list logoutCall :=
  ReqLogout ::
  (if str_truthy returnUrl
   then [CasLogout [VStr (str_or returnUrl ""); VBool true]]
   else [CasLogout []]).

(** The names of the profile literal. *)
Definition baseKeys : list string :=
  ["provider"; "id"; "displayName"; "name"; "emails"].

(** * Properties *)

(** ** Sample evaluations *)

Example spec_emails :
  get "emails"
    (buildProfile [("emails", "defaultmail")] (VStr "jane")
       (mkExtended VUndef VUndef
          [("defaultmail", VArr [VStr "a@x.com"; VStr "b@x.com"])]))
  = VArr [emailRecord (VStr "a@x.com"); emailRecord (VStr "b@x.com")].
Proof. reflexivity. Qed.

Example retryUrl_first :
  retryUrl "/app?a=1&ticket=ST-12-abc.d" 28500000 = "/app?a=1&_cas_retry=28500000".
Proof. reflexivity. Qed.

Example retryUrl_again :
  retryUrl "/app?a=1&_cas_retry=28500000&ticket=ST-13" 28500002
  = "/app?a=1&_cas_retry=28500002".
Proof. reflexivity. Qed.

Example encode_example :
  encodeURIComponent "http://h/p?a=1&b=c d" = "http%3A%2F%2Fh%2Fp%3Fa%3D1%26b%3Dc%20d".
Proof. reflexivity. Qed.

Example authenticate_ticket_run :
  authenticate plainParse plainFormat plainToNumber demoStrategy
    (demoRequest "/app?a=1&ticket=ST-1-abc"
       [("a", VStr "1"); ("ticket", VStr "ST-1-abc")])
  = Validate (VStr "ST-1-abc") "https://app.example.com/app?a=1"
      (validated plainToNumber demoStrategy
         (demoRequest "/app?a=1&ticket=ST-1-abc"
            [("a", VStr "1"); ("ticket", VStr "ST-1-abc")])).
Proof. reflexivity. Qed.

Example retry_then_fail :
  validated plainToNumber demoStrategy
    (demoRequest "/app?a=1&_cas_retry=28500000&ticket=ST-2"
       [("a", VStr "1"); ("_cas_retry", VStr "28500000");
        ("ticket", VStr "ST-2")])
    (demoFailure 1710000000000)
  = Fail (newError "ticket not recognized").
Proof. reflexivity. Qed.

Example retryToken_rounds :
  retryToken 1710000029999 = 28500000 /\ retryToken 1710000030000 = 28500001.
Proof. split; reflexivity. Qed.

(** ** Objects *)

Lemma lookup_set_eq (k : string) (v : value) (o : obj) :
  lookup k (set k v o) = Some v.
Proof.
  induction o as [|[k' v'] o IH]; simpl.
  - now rewrite String.eqb_refl.
  - destruct (String.eqb k k') eqn:E; simpl; rewrite E; auto.
Qed.

Lemma lookup_set_neq (k k' : string) (v : value) (o : obj) :
  k <> k' -> lookup k (set k' v o) = lookup k o.
Proof.
  intros Hne. induction o as [|[k2 v2] o IH]; simpl.
  - apply String.eqb_neq in Hne. now rewrite Hne.
  - destruct (String.eqb k' k2) eqn:E; simpl.
    + apply String.eqb_eq in E. subst k2.
      apply String.eqb_neq in Hne. now rewrite Hne.
    + now rewrite IH.
Qed.

Lemma lookup_delete_eq (k : string) (o : obj) : lookup k (delete k o) = None.
Proof.
  induction o as [|[k' v'] o IH]; simpl; auto.
  destruct (String.eqb k k') eqn:E; simpl; auto. now rewrite E.
Qed.

Lemma lookup_delete_neq (k k' : string) (o : obj) :
  k <> k' -> lookup k (delete k' o) = lookup k o.
Proof.
  intros Hne. induction o as [|[k2 v2] o IH]; simpl; auto.
  destruct (String.eqb k' k2) eqn:E; simpl.
  - apply String.eqb_eq in E. subst k2.
    apply String.eqb_neq in Hne. now rewrite Hne.
  - now rewrite IH.
Qed.

Lemma lookup_delete_None (k k' : string) (o : obj) :
  lookup k o = None -> lookup k (delete k' o) = None.
Proof.
  intros H. destruct (String.eqb k k') eqn:E.
  - apply String.eqb_eq in E. subst. apply lookup_delete_eq.
  - apply String.eqb_neq in E. now rewrite lookup_delete_neq.
Qed.

Lemma get_set_eq (k : string) (v : value) (o : obj) : get k (set k v o) = v.
Proof. unfold get. now rewrite lookup_set_eq. Qed.

Lemma get_set_neq (k k' : string) (v : value) (o : obj) :
  k <> k' -> get k (set k' v o) = get k o.
Proof. intros. unfold get. now rewrite lookup_set_neq. Qed.

Lemma delete_idem (k : string) (o : obj) : delete k (delete k o) = delete k o.
Proof.
  induction o as [|[k' v'] o IH]; simpl; auto.
  destruct (String.eqb k k') eqn:E; simpl; auto. rewrite E. now f_equal.
Qed.

Lemma keys_set_present (k : string) (v : value) (o : obj) :
  In k (keys o) -> keys (set k v o) = keys o.
Proof.
  induction o as [|[k' v'] o IH]; simpl; [tauto|].
  intros H. destruct (String.eqb k k') eqn:E; simpl; auto.
  f_equal. apply IH. destruct H as [H|H]; auto.
  subst. rewrite String.eqb_refl in E. discriminate.
Qed.

Lemma lookup_In_keys (k : string) (o : obj) :
  In k (keys o) <-> lookup k o <> None.
Proof.
  induction o as [|[k' v'] o IH]; simpl.
  - split; [tauto | congruence].
  - destruct (String.eqb k k') eqn:E.
    + apply String.eqb_eq in E. subst. split; [congruence | auto].
    + apply String.eqb_neq in E. rewrite <- IH. split.
      * intros [H|H]; [congruence | auto].
      * auto.
Qed.

Lemma delete_absent (k : string) (o : obj) :
  lookup k o = None -> delete k o = o.
Proof.
  induction o as [|[k' v'] o IH]; simpl; auto.
  destruct (String.eqb k k') eqn:E; [discriminate|].
  intros H. now rewrite IH.
Qed.

(** ** Percent-encoding *)

Lemma decode_plain (c : ascii) (r : string) :
  isUnreserved c = true ->
  decodeURIComponent (String c r)
  = match decodeURIComponent r with
    | Some x => Some (String c x)
    | None => None
    end.
Proof.
  intros H.
  destruct c as [[] [] [] [] [] [] [] []];
    try (vm_compute in H; discriminate H); reflexivity.
Qed.

Lemma decode_escape (h l : ascii) (r : string) :
  decodeURIComponent (String "%" (String h (String l r)))
  = match hexValue h, hexValue l, decodeURIComponent r with
    | Some a, Some b, Some x => Some (String (ascii_of_nat (16 * a + b)) x)
    | _, _, _ => None
    end.
Proof. reflexivity. Qed.

Lemma hex_byte (c : ascii) :
  let n := nat_of_ascii c in
  hexValue (hexDigit (n / 16)) = Some (n / 16)%nat
  /\ hexValue (hexDigit (n mod 16)) = Some (n mod 16)%nat
  /\ ascii_of_nat (16 * (n / 16) + n mod 16) = c.
Proof.
  destruct c as [[] [] [] [] [] [] [] []]; vm_compute; auto.
Qed.

Lemma decode_encode (s : string) :
  decodeURIComponent (encodeURIComponent s) = Some s.
Proof.
  induction s as [|c s IH]; [reflexivity|].
  cbn [encodeURIComponent].
  destruct (isUnreserved c) eqn:E.
  - rewrite decode_plain by exact E. now rewrite IH.
  - rewrite decode_escape.
    destruct (hex_byte c) as (H1 & H2 & H3).
    rewrite H1, H2, IH, H3. reflexivity.
Qed.

(** ** The login redirect *)

Lemma str_or_same (u : string) : str_or (Some u) u = u.
Proof. unfold str_or. now destruct (String.eqb u ""). Qed.

(** With passport initialised and a truthy ticket, [authenticate] is the
    single call of [cas.validate] with the ticket, the service URL and the
    callback [validated]. *)
Lemma authenticate_with_ticket
    (url_parse : string -> parsedUrl) (url_format : urlObject -> string)
    (StringToNumber : string -> option Z) (self : CasStrategy) (req : request) :
  _passport req = true ->
  truthy (ticketOf url_parse req) = true ->
  authenticate url_parse url_format StringToNumber self req
  = Validate (ticketOf url_parse req) (service url_parse url_format req)
      (validated StringToNumber self req).
Proof. intros Hp Ht. unfold authenticate. now rewrite Hp, Ht. Qed.

(** A successful validation on a request with a session calls the verify
    callback, once, with the mapped profile. *)
Lemma validated_success
    (StringToNumber : string -> option Z) (self : CasStrategy)
    (req : request) (r : validation) (s : obj) :
  truthy (v_err r) = false ->
  session req = Some s ->
  validated StringToNumber self req r
  = Verify (storeSession self s (v_extended r)) (_passReqToCallback self)
      (v_username r)
      (buildProfile (casPropertyMap self) (v_username r) (v_extended r))
      verified.
Proof. intros He Hs. unfold validated. now rewrite He, Hs. Qed.

(** C1, as amended: on a request without [req._passport], with or without
    a ticket, [authenticate] is the single call [error(...)]: no redirect,
    no call of [cas.validate], no call of the verify callback. With
    passport initialised on the request and no [ticket] parameter in its
    parsed query, [authenticate] is the single call
    [redirect(casBaseUrl + '/login?service=' + encodeURIComponent(service),
    307)]; decoding the parameter gives back the service URL, which is what
    [url.format] makes of the header-precedence scheme, host and path and
    of the request's parsed query, unchanged since it holds no ticket;
    neither [cas.validate] nor the verify callback is called. *)
Theorem authenticate_no_ticket
    (url_parse : string -> parsedUrl) (url_format : urlObject -> string)
    (StringToNumber : string -> option Z) (self : CasStrategy) (req : request) :
  let a := authenticate url_parse url_format StringToNumber self req in
  let svc := service url_parse url_format req in
  let location :=
    casBaseUrl self ++ "/login?service=" ++ encodeURIComponent svc in
  let notInUse := newError "passport.initialize() middleware not in use" in
  (_passport req = false ->
     a = Error notInUse
     /\ (forall r d, play r d a = [CallError notInUse])
     /\ isRedirect a = false
     /\ callsValidate a = false /\ callsVerify a = false)
  /\ (_passport req = true ->
      lookup "ticket" (parsedQuery (url_parse (requestUrl req))) = None ->
      a = Redirect location 307
      /\ (forall r d, play r d a = [CallRedirect location 307])
      /\ decodeURIComponent (encodeURIComponent svc) = Some svc
      /\ svc = url_format
           {| fmt_protocol :=
                str_or (opt_or (header req "x-forwarded-proto")
                          (opt_or (header req "x-proxied-protocol")
                             (protocol req)))
                       "http";
              fmt_host :=
                opt_or (header req "x-forwarded-host")
                  (opt_or (header req "host")
                     (host (url_parse (requestUrl req))));
              fmt_pathname :=
                opt_or (header req "x-proxied-request-uri")
                  (pathname (url_parse (requestUrl req)));
              fmt_query := parsedQuery (url_parse (requestUrl req)) |}
      /\ callsValidate a = false /\ callsVerify a = false).
Proof.
  intros a svc location notInUse. split.
  - intros Hp.
    assert (Ha : a = Error notInUse).
    { subst a. unfold authenticate. now rewrite Hp. }
    rewrite Ha. repeat split.
  - intros Hp Ht.
    assert (Ha : a = Redirect location 307).
    { subst a location svc. unfold authenticate, ticketOf, get.
      rewrite Hp, Ht. reflexivity. }
    rewrite Ha. repeat split.
    + apply decode_encode.
    + subst svc. unfold service, serviceParts.
      now rewrite (delete_absent _ _ Ht).
Qed.

(** C1: a request that did not pass through [passport.initialize()] gets
    an error and no redirect, ticket or not. *)
Lemma authenticate_no_ticket_counterexample :
  let req := {| _passport := false;
                originalUrl := Some "/app?a=1";
                url := "/app?a=1";
                headers := [("host", "app.example.com")];
                protocol := Some "https";
                query := Some [("a", VStr "1")];
                session := None |} in
  lookup "ticket" (parsedQuery (plainParse (requestUrl req))) = None
  /\ authenticate plainParse plainFormat plainToNumber demoStrategy req
     = Error (newError "passport.initialize() middleware not in use")
  /\ isRedirect (authenticate plainParse plainFormat plainToNumber
                   demoStrategy req) = false.
Proof. repeat split. Qed.

Lemma authenticate_no_ticket_witness :
  authenticate plainParse plainFormat plainToNumber demoStrategy
    (demoRequest "/app?a=1" [("a", VStr "1")])
  = Redirect
      "https://signin.example.com/cas/login?service=https%3A%2F%2Fapp.example.com%2Fapp%3Fa%3D1"
      307
  /\ authenticate plainParse plainFormat plainToNumber demoStrategy
       {| _passport := false;
          originalUrl := Some "/app?ticket=ST-1";
          url := "/app?ticket=ST-1";
          headers := [];
          protocol := None;
          query := None;
          session := None |}
     = Error (newError "passport.initialize() middleware not in use").
Proof.
  split.
  - exact (proj1 (proj2 (authenticate_no_ticket plainParse plainFormat
                           plainToNumber demoStrategy
                           (demoRequest "/app?a=1" [("a", VStr "1")]))
                    eq_refl eq_refl)).
  - exact (proj1 (proj1 (authenticate_no_ticket plainParse plainFormat
                           plainToNumber demoStrategy
                           {| _passport := false;
                              originalUrl := Some "/app?ticket=ST-1";
                              url := "/app?ticket=ST-1";
                              headers := [];
                              protocol := None;
                              query := None;
                              session := None |})
                    eq_refl)).
Defined.

(** ** The service URL *)

Lemma opt_or_absorb (a b c : option string) :
  opt_or a (opt_or b (opt_or a (opt_or b c))) = opt_or a (opt_or b c).
Proof.
  unfold opt_or.
  destruct a as [x|]; [destruct (String.eqb x "") eqn:Ex; [|reflexivity]|];
    (destruct b as [y|]; [destruct (String.eqb y "") eqn:Ey; [|reflexivity]|]);
    reflexivity.
Qed.

Lemma opt_or_twice (a c : option string) :
  opt_or a (opt_or a c) = opt_or a c.
Proof.
  unfold opt_or.
  destruct a as [x|]; [destruct (String.eqb x "") eqn:Ex|]; reflexivity.
Qed.

(** C8: the service URL is a function of the request alone. A request
    arriving at its URL with the ticket already stripped (same parsed host
    and path, the parsed query minus [ticket]) carries no ticket and builds
    the same service URL; and building again from the service URL itself,
    when [url.parse] reads back from it the host, path and query that
    [url.format] was given, yields that service URL. *)
Theorem service_idempotent
    (url_parse : string -> parsedUrl) (url_format : urlObject -> string)
    (req : request) :
  let svc := service url_parse url_format req in
  let parts := serviceParts url_parse req in
  (forall u',
     host (url_parse u') = host (url_parse (requestUrl req)) ->
     pathname (url_parse u') = pathname (url_parse (requestUrl req)) ->
     parsedQuery (url_parse u')
       = delete "ticket" (parsedQuery (url_parse (requestUrl req))) ->
     service url_parse url_format (withUrl req u') = svc
     /\ ticketOf url_parse (withUrl req u') = VUndef)
  /\ (host (url_parse svc) = fmt_host parts ->
      pathname (url_parse svc) = fmt_pathname parts ->
      parsedQuery (url_parse svc) = fmt_query parts ->
      service url_parse url_format (withUrl req svc) = svc
      /\ ticketOf url_parse (withUrl req svc) = VUndef).
Proof.
  intros svc parts. split.
  - intros u' Hh Hp Hq.
    assert (Hu : requestUrl (withUrl req u') = u') by apply str_or_same.
    split.
    + subst svc. unfold service, serviceParts.
      rewrite Hu, Hh, Hp, Hq, delete_idem. reflexivity.
    + unfold ticketOf, get. rewrite Hu, Hq, lookup_delete_eq. reflexivity.
  - intros Hh Hp Hq.
    assert (Hu : requestUrl (withUrl req svc) = svc) by apply str_or_same.
    split.
    + unfold service at 1. unfold serviceParts at 1.
      rewrite Hu, Hh, Hp, Hq. subst parts. unfold serviceParts at 1 2 3.
      cbn [fmt_host fmt_pathname fmt_query headers protocol withUrl header].
      rewrite opt_or_absorb, opt_or_twice, delete_idem. reflexivity.
    + unfold ticketOf, get. rewrite Hu, Hq. subst parts.
      unfold serviceParts. cbn [fmt_query].
      rewrite lookup_delete_eq. reflexivity.
Qed.

Lemma service_idempotent_witness :
  let req := demoRequest "/app?a=1&ticket=ST-1-abc" [] in
  service plainParse plainFormat req = "https://app.example.com/app?a=1"
  /\ service plainParse plainFormat (withUrl req "/app?a=1")
     = service plainParse plainFormat req
  /\ service plainParse plainFormat
       (withUrl req (service plainParse plainFormat req))
     = service plainParse plainFormat req.
Proof.
  intros req. split; [reflexivity|]. split.
  - exact (proj1 (proj1 (service_idempotent plainParse plainFormat req)
                    "/app?a=1" eq_refl eq_refl eq_refl)).
  - exact (proj1 (proj2 (service_idempotent plainParse plainFormat req)
                    eq_refl eq_refl eq_refl)).
Defined.

(** ** The retry redirect *)

Lemma append_assoc (a b c : string) : (a ++ b) ++ c = a ++ (b ++ c).
Proof. induction a as [|x a IH]; simpl; [reflexivity | now rewrite IH]. Qed.

Lemma append_empty_r (a : string) : a ++ "" = a.
Proof. induction a as [|x a IH]; simpl; [reflexivity | now rewrite IH]. Qed.

Lemma stripPrefix_Some (p s r : string) :
  stripPrefix p s = Some r -> s = p ++ r.
Proof.
  revert s. induction p as [|a p IH]; intros s H; simpl in *.
  - now inversion H.
  - destruct s as [|b s]; [discriminate|].
    destruct (Ascii.eqb a b) eqn:E; [|discriminate].
    apply Ascii.eqb_eq in E. subst b. f_equal. now apply IH.
Qed.

Lemma stripPrefix_app (p r : string) : stripPrefix p (p ++ r) = Some r.
Proof.
  induction p as [|a p IH]; simpl; [reflexivity|].
  now rewrite Ascii.eqb_refl.
Qed.

Lemma cutSep_app (a : string) (c : ascii) (b : string) :
  noSep a = true -> isSep c = true ->
  cutSep (a ++ String c b) = (a, Some (c, b)).
Proof.
  intros Ha Hc. induction a as [|x a IH]; simpl.
  - now rewrite Hc.
  - unfold noSep in Ha. simpl in Ha. apply andb_prop in Ha.
    destruct Ha as [Hx Ha]. apply negb_true_iff in Hx. rewrite Hx.
    now rewrite (IH Ha).
Qed.

Lemma cutSep_plain (a : string) : noSep a = true -> cutSep a = (a, None).
Proof.
  intros Ha. induction a as [|x a IH]; simpl; [reflexivity|].
  unfold noSep in Ha. simpl in Ha. apply andb_prop in Ha.
  destruct Ha as [Hx Ha]. apply negb_true_iff in Hx. rewrite Hx.
  now rewrite (IH Ha).
Qed.

Lemma span_run (f : ascii -> bool) (ds : string) (c : ascii) (r : string) :
  allChars f ds = true -> f c = false ->
  span f (ds ++ String c r) = (ds, String c r).
Proof.
  intros Hd Hc. induction ds as [|d ds IH]; simpl.
  - now rewrite Hc.
  - simpl in Hd. apply andb_prop in Hd. destruct Hd as [Hx Hd].
    now rewrite Hx, (IH Hd).
Qed.

Lemma span_all (f : ascii -> bool) (ds : string) :
  allChars f ds = true -> span f ds = (ds, "").
Proof.
  intros Hd. induction ds as [|d ds IH]; simpl; [reflexivity|].
  simpl in Hd. apply andb_prop in Hd. destruct Hd as [Hx Hd].
  now rewrite Hx, (IH Hd).
Qed.

Lemma unmatched_app {A : Type} (M : string -> option A) (p1 p2 suf : string) :
  unmatched M p1 (p2 ++ suf) -> unmatched M p2 suf ->
  unmatched M (p1 ++ p2) suf.
Proof.
  intros H1 H2. induction p1 as [|c p1 IH]; simpl in *; [exact H2|].
  destruct H1 as [H H1]. split.
  - now rewrite append_assoc.
  - now apply IH.
Qed.

Lemma removeRetry_skip (pre suf : string) :
  unmatched matchRetry pre suf ->
  removeRetry (pre ++ suf) = pre ++ removeRetry suf.
Proof.
  induction pre as [|c pre IH]; intros H; [reflexivity|].
  destruct H as [H H']. simpl in H. simpl.
  rewrite H. now rewrite (IH H').
Qed.

Lemma removeRetry_unmatched (s : string) :
  unmatched matchRetry s "" -> removeRetry s = s.
Proof.
  intros H. rewrite <- (append_empty_r s) at 1.
  rewrite removeRetry_skip by exact H. simpl. apply append_empty_r.
Qed.

Lemma endsWith_tail (suffix : string) (c : ascii) (s : string) :
  endsWith suffix (String c s) = false -> endsWith suffix s = false.
Proof. simpl. intros H. now apply orb_false_elim in H. Qed.

Lemma endsWith_self (suffix s : string) :
  endsWith suffix s = false -> s <> suffix.
Proof.
  intros H ->. destruct suffix; simpl in H.
  - discriminate.
  - rewrite Ascii.eqb_refl, String.eqb_refl in H. discriminate.
Qed.

(** No retry match starts inside a separator-free text followed by a
    separator, unless the text ends in "_cas_retry" and [=] follows. *)
Lemma unmatched_retry_plain (x : string) (c : ascii) (rest : string) :
  noSep x = true -> isSep c = true ->
  (c = "="%char -> endsWith "_cas_retry" x = false) ->
  unmatched matchRetry x (String c rest).
Proof.
  intros Hx Hc He. induction x as [|a x IH]; simpl; [exact I|].
  split.
  - change (String a (x ++ String c rest)) with (String a x ++ String c rest).
    unfold matchRetry.
    destruct (stripPrefix "_cas_retry=" (String a x ++ String c rest))
      as [r|] eqn:E; [|reflexivity].
    apply stripPrefix_Some in E.
    assert (Hcut : cutSep (String a x ++ String c rest)
                   = cutSep ("_cas_retry=" ++ r)) by now rewrite E.
    rewrite cutSep_app in Hcut by assumption.
    simpl in Hcut.
    assert (H1 : String a x = "_cas_retry") by congruence.
    assert (H2 : c = "="%char) by congruence.
    specialize (He H2). now apply endsWith_self in He.
  - apply IH.
    + unfold noSep in *. simpl in Hx. apply andb_prop in Hx. tauto.
    + intros H. apply (endsWith_tail _ a). auto.
Qed.

Lemma unmatched_retry_end (x : string) :
  noSep x = true -> unmatched matchRetry x "".
Proof.
  intros Hx. induction x as [|a x IH]; simpl; [exact I|].
  split.
  - rewrite append_empty_r. unfold matchRetry.
    destruct (stripPrefix "_cas_retry=" (String a x)) as [r|] eqn:E;
      [|reflexivity].
    apply stripPrefix_Some in E.
    assert (Hcut : cutSep (String a x) = cutSep ("_cas_retry=" ++ r))
      by now rewrite E.
    rewrite cutSep_plain in Hcut by assumption.
    simpl in Hcut. discriminate.
  - apply IH. unfold noSep in *. simpl in Hx. apply andb_prop in Hx. tauto.
Qed.

Lemma isSep_cases (c : ascii) :
  isSep c = true -> c = "?"%char \/ c = "&"%char \/ c = "="%char.
Proof.
  unfold isSep. intros H.
  apply orb_prop in H. destruct H as [H|H].
  - apply orb_prop in H. destruct H as [H|H]; apply Ascii.eqb_eq in H; auto.
  - apply Ascii.eqb_eq in H. auto.
Qed.

Lemma unmatched_retry_sep (c : ascii) (rest : string) :
  isSep c = true -> unmatched matchRetry (String c "") rest.
Proof.
  intros H. simpl. split; [|exact I].
  destruct (isSep_cases c H) as [-> | [-> | ->]]; reflexivity.
Qed.

Lemma renderQuery_cons (p : string * string) (ps : list (string * string)) :
  ps <> [] -> renderQuery (p :: ps) = renderParam p ++ "&" ++ renderQuery ps.
Proof. destruct ps; [congruence | reflexivity]. Qed.

Lemma plainParam_inv (p : string * string) :
  plainParam p = true ->
  noSep (fst p) = true /\ noSep (snd p) = true
  /\ endsWith "_cas_retry" (fst p) = false.
Proof.
  unfold plainParam. intros H.
  apply andb_prop in H. destruct H as [H H3].
  apply andb_prop in H. destruct H as [H1 H2].
  apply negb_true_iff in H3. auto.
Qed.

Lemma unmatched_retry_param (p : string * string) (rest : string) :
  plainParam p = true ->
  unmatched matchRetry (renderParam p ++ "&") rest.
Proof.
  intros H. destruct (plainParam_inv p H) as (Hk & Hv & He).
  unfold renderParam. rewrite append_assoc.
  apply unmatched_app.
  - simpl. rewrite append_assoc.
    apply unmatched_retry_plain; auto.
  - change ("=" ++ snd p) with (String "=" "" ++ snd p).
    rewrite append_assoc. apply unmatched_app.
    + apply unmatched_retry_sep. reflexivity.
    + apply unmatched_app.
      * apply unmatched_retry_plain; auto. discriminate.
      * apply unmatched_retry_sep. reflexivity.
Qed.

Lemma unmatched_retry_last (p : string * string) :
  plainParam p = true -> unmatched matchRetry (renderParam p) "".
Proof.
  intros H. destruct (plainParam_inv p H) as (Hk & Hv & He).
  unfold renderParam. apply unmatched_app.
  - simpl. apply unmatched_retry_plain; auto.
  - change ("=" ++ snd p) with (String "=" "" ++ snd p).
    apply unmatched_app.
    + apply unmatched_retry_sep. reflexivity.
    + now apply unmatched_retry_end.
Qed.

Lemma unmatched_retry_query (ps : list (string * string)) :
  forallb plainParam ps = true -> unmatched matchRetry (renderQuery ps) "".
Proof.
  induction ps as [|p ps IH]; intros H; [exact I|].
  simpl in H. apply andb_prop in H. destruct H as [Hp Hps].
  destruct ps as [|p' ps].
  - now apply unmatched_retry_last.
  - rewrite renderQuery_cons by discriminate.
    rewrite <- append_assoc. apply unmatched_app.
    + now apply unmatched_retry_param.
    + now apply IH.
Qed.

Lemma runOf_inv (f : ascii -> bool) (s : string) :
  runOf f s = true ->
  exists c s', s = String c s' /\ allChars f s = true.
Proof.
  unfold runOf. intros H. apply andb_prop in H. destruct H as [H1 H2].
  destruct s as [|c s']; [discriminate|]. eauto.
Qed.

Lemma matchRetry_here (ds rest : string) :
  runOf isDigit ds = true ->
  matchRetry ("_cas_retry=" ++ ds ++ "&" ++ rest) = Some rest.
Proof.
  intros H. destruct (runOf_inv _ _ H) as (c & s' & -> & Hall).
  unfold matchRetry. rewrite stripPrefix_app.
  change ("&" ++ rest) with (String "&" rest).
  rewrite span_run by (exact Hall || reflexivity). reflexivity.
Qed.

Lemma removeRetry_eq (s : string) :
  removeRetry s
  = match matchRetry s with
    | Some rest => rest
    | None =>
        match s with
        | EmptyString => EmptyString
        | String c s' => String c (removeRetry s')
        end
    end.
Proof. destruct s; reflexivity. Qed.

Lemma removeRetry_query (ps1 : list (string * string)) (ds : string)
    (q : list (string * string)) :
  forallb plainParam ps1 = true ->
  runOf isDigit ds = true ->
  q <> [] ->
  removeRetry (renderQuery (ps1 ++ ("_cas_retry", ds) :: q))
  = renderQuery (ps1 ++ q).
Proof.
  intros Hps Hds Hq. induction ps1 as [|p ps1 IH].
  - cbn [app]. rewrite renderQuery_cons by exact Hq.
    unfold renderParam. cbn [fst snd].
    rewrite !append_assoc.
    rewrite removeRetry_eq.
    change ("_cas_retry" ++ "=" ++ ds ++ "&" ++ renderQuery q)
      with ("_cas_retry=" ++ ds ++ "&" ++ renderQuery q).
    now rewrite matchRetry_here.
  - simpl in Hps. apply andb_prop in Hps. destruct Hps as [Hp Hps].
    cbn [app].
    rewrite !renderQuery_cons by (destruct ps1; discriminate || (destruct q; [congruence | discriminate])).
    rewrite <- !append_assoc.
    rewrite removeRetry_skip by (now apply unmatched_retry_param).
    now rewrite (IH Hps).
Qed.

Lemma removeRetry_path (path q : string) :
  noSep path = true ->
  removeRetry (path ++ "?" ++ q) = path ++ "?" ++ removeRetry q.
Proof.
  intros Hp.
  rewrite removeRetry_skip
    by (apply unmatched_retry_plain; [exact Hp | reflexivity | discriminate]).
  reflexivity.
Qed.

Lemma removeRetry_url (path : string) (ps1 : list (string * string))
    (ds : string) (q : list (string * string)) :
  noSep path = true ->
  forallb plainParam ps1 = true ->
  runOf isDigit ds = true ->
  q <> [] ->
  removeRetry (renderUrl path (ps1 ++ ("_cas_retry", ds) :: q))
  = renderUrl path (ps1 ++ q).
Proof.
  intros Hp Hps Hds Hq. unfold renderUrl.
  rewrite removeRetry_path by exact Hp.
  now rewrite removeRetry_query.
Qed.

Lemma removeRetry_url_none (path : string) (ps : list (string * string)) :
  noSep path = true ->
  forallb plainParam ps = true ->
  removeRetry (renderUrl path ps) = renderUrl path ps.
Proof.
  intros Hp Hps. unfold renderUrl.
  rewrite removeRetry_path by exact Hp.
  now rewrite removeRetry_unmatched by (now apply unmatched_retry_query).
Qed.

Lemma replaceTicket_eq (tok s : string) :
  replaceTicket tok s
  = match matchTicket s with
    | Some (c, rest) => String c ("_cas_retry=" ++ tok ++ rest)
    | None =>
        match s with
        | EmptyString => EmptyString
        | String c s' => String c (replaceTicket tok s')
        end
    end.
Proof. destruct s; reflexivity. Qed.

Lemma replaceTicket_skip (tok x s : string) :
  noAmp x = true -> replaceTicket tok (x ++ s) = x ++ replaceTicket tok s.
Proof.
  intros Hx. induction x as [|c x IH]; [reflexivity|].
  unfold noAmp in Hx. simpl in Hx. apply andb_prop in Hx.
  destruct Hx as [Hc Hx]. apply negb_true_iff in Hc.
  rewrite replaceTicket_eq. simpl. rewrite Hc. now rewrite (IH Hx).
Qed.

Lemma allChars_app (f : ascii -> bool) (a b : string) :
  allChars f (a ++ b) = allChars f a && allChars f b.
Proof.
  induction a as [|c a IH]; simpl; [reflexivity|].
  now rewrite IH, andb_assoc.
Qed.

Lemma noSep_noAmp (s : string) : noSep s = true -> noAmp s = true.
Proof.
  unfold noSep, noAmp. induction s as [|c s IH]; simpl; [reflexivity|].
  intros H. apply andb_prop in H. destruct H as [Hc Hs].
  rewrite (IH Hs), andb_true_r.
  unfold isSep in Hc. apply negb_true_iff in Hc.
  apply orb_false_elim in Hc. destruct Hc as [Hc _].
  now rewrite Hc.
Qed.

Lemma otherParam_inv (p : string * string) :
  otherParam p = true -> plainParam p = true /\ fst p <> "ticket".
Proof.
  unfold otherParam. intros H. apply andb_prop in H. destruct H as [H1 H2].
  apply negb_true_iff, String.eqb_neq in H2. auto.
Qed.

Lemma noAmp_param (p : string * string) :
  plainParam p = true -> noAmp (renderParam p) = true.
Proof.
  intros H. destruct (plainParam_inv p H) as (Hk & Hv & _).
  unfold renderParam, noAmp. rewrite !allChars_app.
  fold (noAmp (fst p)). fold (noAmp (snd p)).
  now rewrite (noSep_noAmp _ Hk), (noSep_noAmp _ Hv).
Qed.

Lemma matchTicket_param (c : ascii) (p : string * string) (rest : string) :
  otherParam p = true ->
  matchTicket (String c (renderParam p ++ rest)) = None.
Proof.
  intros H. destruct (otherParam_inv p H) as (Hp & Hne).
  destruct (plainParam_inv p Hp) as (Hk & _ & _).
  unfold matchTicket. destruct (Ascii.eqb c "?" || Ascii.eqb c "&"); [|reflexivity].
  destruct (stripPrefix "ticket=" (renderParam p ++ rest)) as [r|] eqn:E;
    [|reflexivity].
  apply stripPrefix_Some in E.
  assert (Hcut : cutSep (renderParam p ++ rest) = cutSep ("ticket=" ++ r))
    by now rewrite E.
  unfold renderParam in Hcut. rewrite append_assoc in Hcut. simpl in Hcut.
  rewrite cutSep_app in Hcut by (exact Hk || reflexivity).
  exfalso. apply Hne. congruence.
Qed.

Lemma matchTicket_here (c : ascii) (t tail : string) :
  (c = "?" \/ c = "&")%char ->
  runOf isTicketChar t = true ->
  tail = "" \/ (exists r, tail = String "&" r) ->
  matchTicket (String c ("ticket=" ++ t ++ tail)) = Some (c, tail).
Proof.
  intros Hc Ht Htail. destruct (runOf_inv _ _ Ht) as (d & t' & -> & Hall).
  unfold matchTicket.
  assert (Hq : Ascii.eqb c "?" || Ascii.eqb c "&" = true)
    by (destruct Hc as [-> | ->]; reflexivity).
  rewrite Hq, stripPrefix_app.
  destruct Htail as [-> | [r ->]].
  - rewrite append_empty_r, span_all by exact Hall. reflexivity.
  - rewrite span_run by (exact Hall || reflexivity). reflexivity.
Qed.

Lemma replaceTicket_query (tok : string) (ps : list (string * string))
    (t : string) (ps3 : list (string * string)) (c : ascii) :
  forallb otherParam ps = true ->
  runOf isTicketChar t = true ->
  (c = "?" \/ c = "&")%char ->
  replaceTicket tok (String c (renderQuery (ps ++ ("ticket", t) :: ps3)))
  = String c (renderQuery (ps ++ ("_cas_retry", tok) :: ps3)).
Proof.
  intros Hps Ht. revert c. induction ps as [|p ps IH]; intros c Hc.
  - cbn [app]. rewrite replaceTicket_eq. destruct ps3 as [|p3 ps3].
    + cbn [renderQuery]. unfold renderParam. cbn [fst snd].
      change ("ticket" ++ "=" ++ t) with ("ticket=" ++ t).
      rewrite <- (append_empty_r t) at 1.
      rewrite matchTicket_here by auto.
      now rewrite append_empty_r.
    + rewrite (renderQuery_cons ("ticket", t)) by discriminate.
      rewrite (renderQuery_cons ("_cas_retry", tok)) by discriminate.
      unfold renderParam. cbn [fst snd]. rewrite !append_assoc.
      change ("ticket" ++ "=" ++ t ++ "&" ++ renderQuery (p3 :: ps3))
        with ("ticket=" ++ t ++ String "&" (renderQuery (p3 :: ps3))).
      rewrite matchTicket_here by eauto.
      reflexivity.
  - simpl in Hps. apply andb_prop in Hps. destruct Hps as [Hp Hps].
    cbn [app]. rewrite !renderQuery_cons by (destruct ps; discriminate).
    rewrite replaceTicket_eq, matchTicket_param by exact Hp.
    rewrite replaceTicket_skip
      by (apply noAmp_param; now apply otherParam_inv).
    change ("&" ++ renderQuery (ps ++ ("ticket", t) :: ps3))
      with (String "&" (renderQuery (ps ++ ("ticket", t) :: ps3))).
    rewrite IH by auto. reflexivity.
Qed.

Lemma replaceTicket_url (tok path : string) (ps : list (string * string))
    (t : string) (ps3 : list (string * string)) :
  noSep path = true ->
  forallb otherParam ps = true ->
  runOf isTicketChar t = true ->
  replaceTicket tok (renderUrl path (ps ++ ("ticket", t) :: ps3))
  = renderUrl path (ps ++ ("_cas_retry", tok) :: ps3).
Proof.
  intros Hp Hps Ht. unfold renderUrl.
  rewrite replaceTicket_skip by now apply noSep_noAmp.
  change ("?" ++ renderQuery (ps ++ ("ticket", t) :: ps3))
    with (String "?" (renderQuery (ps ++ ("ticket", t) :: ps3))).
  rewrite replaceTicket_query by auto. reflexivity.
Qed.

Lemma ticketChar_noSep (c : ascii) :
  isTicketChar c = true -> negb (isSep c) = true.
Proof.
  destruct c as [[] [] [] [] [] [] [] []]; vm_compute; congruence.
Qed.

Lemma ticket_noSep (t : string) : allChars isTicketChar t = true -> noSep t = true.
Proof.
  unfold noSep. induction t as [|c t IH]; simpl; [reflexivity|].
  intros H. apply andb_prop in H. destruct H as [Hc Ht].
  now rewrite (ticketChar_noSep c Hc), (IH Ht).
Qed.

Lemma otherParam_plain (ps : list (string * string)) :
  forallb otherParam ps = true -> forallb plainParam ps = true.
Proof.
  induction ps as [|p ps IH]; simpl; [reflexivity|].
  intros H. apply andb_prop in H. destruct H as [Hp Hps].
  destruct (otherParam_inv p Hp) as [Hpl _]. now rewrite Hpl, (IH Hps).
Qed.

Lemma retryUrl_marked (token : Z) (path : string)
    (ps1 : list (string * string)) (ds : string)
    (ps2 : list (string * string)) (t : string)
    (ps3 : list (string * string)) :
  noSep path = true ->
  forallb otherParam (ps1 ++ ps2) = true ->
  runOf isDigit ds = true ->
  runOf isTicketChar t = true ->
  retryUrl (renderUrl path (ps1 ++ ("_cas_retry", ds) :: ps2 ++ ("ticket", t) :: ps3))
           token
  = renderUrl path (ps1 ++ ps2 ++ ("_cas_retry", numberToString token) :: ps3).
Proof.
  intros Hp Hps Hds Ht. unfold retryUrl.
  assert (Hps1 : forallb plainParam ps1 = true).
  { apply otherParam_plain. rewrite forallb_app in Hps.
    apply andb_prop in Hps. tauto. }
  rewrite removeRetry_url; auto.
  - rewrite app_assoc. rewrite replaceTicket_url by auto.
    now rewrite <- app_assoc.
  - destruct ps2; discriminate.
Qed.

Lemma retryUrl_unmarked (token : Z) (path : string)
    (ps : list (string * string)) (t : string)
    (ps3 : list (string * string)) :
  noSep path = true ->
  forallb otherParam ps = true ->
  runOf isTicketChar t = true ->
  forallb plainParam ps3 = true ->
  retryUrl (renderUrl path (ps ++ ("ticket", t) :: ps3)) token
  = renderUrl path (ps ++ ("_cas_retry", numberToString token) :: ps3).
Proof.
  intros Hp Hps Ht Hps3. unfold retryUrl.
  rewrite removeRetry_url_none; auto.
  - now apply replaceTicket_url.
  - rewrite forallb_app. rewrite (otherParam_plain ps Hps).
    cbn [forallb andb]. rewrite Hps3, andb_true_r.
    unfold plainParam. cbn [fst snd].
    destruct (runOf_inv _ _ Ht) as (c & t' & _ & Hall).
    now rewrite (ticket_noSep t Hall).
Qed.

(** C2, where the code departs from it: the rewrite works on the text of
    the URL while the ticket is read from the parsed query. For the request
    target [/app?a=1&%74icket=ST-1], whose parsed query holds the ticket
    [ST-1], a failed validation is redirected (307), at every clock
    reading, to that same target: the ticket is not replaced and no marker
    is written, so the same request comes back. A prior marker whose value
    is not a run of digits stays in the retry URL; and a marker that ends a
    longer name takes the separator before [ticket] with it, so that the
    ticket parameter is renamed instead of replaced. *)
Theorem retry_rewrite_misses
    (StringToNumber : string -> option Z) (self : CasStrategy) (now : Z) :
  let again :=
    demoRequest "/app?a=1&%74icket=ST-1"
      [("a", VStr "1"); ("ticket", VStr "ST-1")] in
  validated StringToNumber self again (demoFailure now)
  = Redirect (requestUrl again) 307
  /\ requestUrl again = "/app?a=1&%74icket=ST-1"
  /\ retryUrl "/app?_cas_retry=abc&ticket=ST-1" (retryToken now)
     = "/app?_cas_retry=abc&_cas_retry=" ++ numberToString (retryToken now)
  /\ retryUrl "/app?my_cas_retry=5&ticket=ST-1" (retryToken now)
     = "/app?myticket=ST-1".
Proof.
  intros again. repeat split.
  unfold retryUrl. simpl. now rewrite append_empty_r.
Qed.

(** X25: when the validation of a ticket returns an error on a request
    with a parsed query, a request whose [_cas_retry] parameter is absent,
    or is a text that does not denote the current window token, is
    redirected (307) to the retry URL, and one whose [_cas_retry] denotes
    the token fails with the validation error and gets no redirect. For a
    request target written as separator-free parameters, none but the
    ticket named [ticket] and no name ending in [_cas_retry], the retry URL
    is the target with the leading [_cas_retry=<digits>] parameter removed
    and the ticket parameter, a run of word characters, dots and dashes,
    replaced by [_cas_retry=<token>]. *)
Theorem validation_error_retry
    (StringToNumber : string -> option Z) (self : CasStrategy)
    (req : request) (r : validation) (q : obj) :
  truthy (v_err r) = true ->
  query req = Some q ->
  let token := retryToken (v_now r) in
  let a := validated StringToNumber self req r in
  (lookup "_cas_retry" q = None ->
     a = Redirect (retryUrl (requestUrl req) token) 307)
  /\ (forall s, lookup "_cas_retry" q = Some (VStr s) ->
        StringToNumber s <> Some token ->
        a = Redirect (retryUrl (requestUrl req) token) 307)
  /\ (forall s, lookup "_cas_retry" q = Some (VStr s) ->
        StringToNumber s = Some token ->
        a = Fail (v_err r) /\ isRedirect a = false)
  /\ (forall path ps1 ds ps2 t ps3,
        requestUrl req
        = renderUrl path
            (ps1 ++ ("_cas_retry", ds) :: ps2 ++ ("ticket", t) :: ps3) ->
        noSep path = true ->
        forallb otherParam (ps1 ++ ps2) = true ->
        runOf isDigit ds = true ->
        runOf isTicketChar t = true ->
        retryUrl (requestUrl req) token
        = renderUrl path
            (ps1 ++ ps2 ++ ("_cas_retry", numberToString token) :: ps3))
  /\ (forall path ps t ps3,
        requestUrl req = renderUrl path (ps ++ ("ticket", t) :: ps3) ->
        noSep path = true ->
        forallb otherParam ps = true ->
        runOf isTicketChar t = true ->
        forallb plainParam ps3 = true ->
        retryUrl (requestUrl req) token
        = renderUrl path
            (ps ++ ("_cas_retry", numberToString token) :: ps3)).
Proof.
  intros He Hq token a. subst a. unfold validated. rewrite He, Hq. fold token.
  repeat split.
  - intros H. unfold get. now rewrite H.
  - intros s H Hs. unfold get. rewrite H. cbn [looseNeqNumber].
    destruct (StringToNumber s) as [m|] eqn:E; [|reflexivity].
    destruct (Z.eqb_spec m token) as [->|Hne]; [congruence | reflexivity].
  - unfold get. rewrite H. cbn [looseNeqNumber]. rewrite H0.
    now rewrite Z.eqb_refl.
  - unfold get. rewrite H. cbn [looseNeqNumber]. rewrite H0.
    now rewrite Z.eqb_refl.
  - intros path ps1 ds ps2 t ps3 -> Hp Hps Hds Ht.
    now apply retryUrl_marked.
  - intros path ps t ps3 -> Hp Hps Ht Hps3.
    now apply retryUrl_unmarked.
Qed.

Lemma validation_error_retry_witness :
  validated plainToNumber demoStrategy
    (demoRequest "/app?a=1&_cas_retry=28499999&ticket=ST-1-abc"
       [("a", VStr "1"); ("_cas_retry", VStr "28499999");
        ("ticket", VStr "ST-1-abc")])
    (demoFailure 1710000000000)
  = Redirect "/app?a=1&_cas_retry=28500000" 307.
Proof.
  refine (proj1 (proj2
            (validation_error_retry plainToNumber demoStrategy
               (demoRequest "/app?a=1&_cas_retry=28499999&ticket=ST-1-abc"
                  [("a", VStr "1"); ("_cas_retry", VStr "28499999");
                   ("ticket", VStr "ST-1-abc")])
               (demoFailure 1710000000000)
               [("a", VStr "1"); ("_cas_retry", VStr "28499999");
                ("ticket", VStr "ST-1-abc")]
               eq_refl eq_refl))
            "28499999" eq_refl _).
  vm_compute. discriminate.
Defined.

(** ** Session state *)

Lemma storeSession_entry (self : CasStrategy) (s : obj) (ext : extended) :
  get (casSessionKey self) (storeSession self s ext)
  = if str_truthy (casPgtUrl self)
    then VObj [("PGTIOU", ext_PGTIOU ext)]
    else VObj [].
Proof.
  unfold storeSession. rewrite get_set_eq.
  destruct (str_truthy (casPgtUrl self)); now rewrite get_set_eq.
Qed.

(** Without a session object the first session write throws. *)
Lemma validated_no_session
    (StringToNumber : string -> option Z) (self : CasStrategy)
    (req : request) (r : validation) :
  truthy (v_err r) = false ->
  session req = None ->
  validated StringToNumber self req r = Throw "TypeError".
Proof. intros He Hs. unfold validated. now rewrite He, Hs. Qed.

(** C9: on a successful validation of a request with a session, the
    session handed on to the verify callback has, under the session key,
    a fresh object: it holds the PGTIOU of this validation when a PGT
    callback URL is configured and is empty otherwise, whatever was stored
    there before. *)
Theorem session_entry_reset
    (StringToNumber : string -> option Z) (self : CasStrategy)
    (req : request) (r : validation) (s : obj) :
  truthy (v_err r) = false ->
  session req = Some s ->
  let s' := storeSession self s (v_extended r) in
  validated StringToNumber self req r
  = Verify s' (_passReqToCallback self) (v_username r)
      (buildProfile (casPropertyMap self) (v_username r) (v_extended r))
      verified
  /\ (str_truthy (casPgtUrl self) = true ->
      get (casSessionKey self) s'
      = VObj [("PGTIOU", ext_PGTIOU (v_extended r))])
  /\ (str_truthy (casPgtUrl self) = false ->
      get (casSessionKey self) s' = VObj [])
  /\ (forall k, k <> casSessionKey self -> lookup k s' = lookup k s).
Proof.
  intros He Hs s'. subst s'. repeat split.
  - unfold validated. now rewrite He, Hs.
  - intros H. now rewrite storeSession_entry, H.
  - intros H. now rewrite storeSession_entry, H.
  - intros k Hk. unfold storeSession.
    destruct (str_truthy (casPgtUrl self)).
    + rewrite get_set_eq, !lookup_set_neq by exact Hk. reflexivity.
    + now rewrite lookup_set_neq.
Qed.

Lemma session_entry_reset_witness :
  get "cas"
    (storeSession demoStrategy
       [("cas", VObj [("PGTIOU", VStr "PGTIOU-1-old")])]
       (v_extended (demoValidation [])))
  = VObj [].
Proof.
  exact (proj1 (proj2 (proj2
           (session_entry_reset plainToNumber demoStrategy
              (demoRequest "/app?ticket=ST-1" [("ticket", VStr "ST-1")])
              (demoValidation [])
              [("cas", VObj [("PGTIOU", VStr "PGTIOU-1-old")])]
              eq_refl eq_refl))) eq_refl).
Defined.

(** ** The profile mapper *)

Lemma set_get_same (k : string) (o : obj) :
  In k (keys o) -> set k (get k o) o = o.
Proof.
  induction o as [|[k' v'] o IH]; simpl; [tauto|].
  intros H. unfold get. simpl.
  destruct (String.eqb k k') eqn:E; [reflexivity|].
  f_equal. apply IH. destruct H as [H|H]; auto.
  subst. rewrite String.eqb_refl in E. discriminate.
Qed.

Lemma mapOther_set (pm : list (string * string)) (p a : obj) (key : string) :
  In key (keys p) ->
  mapOther pm (p, a) key
  = (set key (otherValue (get key p) (get (mappedKey pm key) a)) p,
     delete (mappedKey pm key) a).
Proof.
  intros H. unfold mapOther, otherValue. f_equal.
  destruct (isArray _); [reflexivity|].
  destruct (truthy _); [reflexivity|].
  now rewrite set_get_same.
Qed.

Lemma loop_result (pm : list (string * string)) (username : value)
    (ext : extended) :
  fold_left (mapKey pm) (keys (initProfile username ext))
            (initProfile username ext, ext_attributes ext)
  = (mappedProfile pm username ext,
     deleteAll (map (mappedKey pm) fieldOrder) (ext_attributes ext)).
Proof.
  unfold initProfile. cbn [keys map fst fold_left].
  unfold mapKey at 5. cbn [String.eqb Ascii.eqb Bool.eqb].
  rewrite mapOther_set by (simpl; auto).
  unfold mapKey at 4. cbn [String.eqb Ascii.eqb Bool.eqb].
  rewrite mapOther_set by (simpl; auto).
  unfold mapKey at 3. cbn [String.eqb Ascii.eqb Bool.eqb].
  rewrite mapOther_set by (simpl; auto).
  reflexivity.
Qed.

Lemma remaining_eq (pm : list (string * string)) (username : value)
    (ext : extended) :
  remaining pm username ext
  = deleteAll (map (mappedKey pm) fieldOrder) (ext_attributes ext).
Proof. unfold remaining. cbv zeta. now rewrite loop_result. Qed.

Lemma buildProfile_eq (pm : list (string * string)) (username : value)
    (ext : extended) :
  buildProfile pm username ext
  = copyRemaining (mappedProfile pm username ext) (remaining pm username ext).
Proof.
  rewrite remaining_eq. unfold buildProfile. cbv zeta.
  now rewrite loop_result.
Qed.

Lemma lookup_deleteAll_notin (ks : list string) (k : string) (a : obj) :
  ~ In k ks -> lookup k (deleteAll ks a) = lookup k a.
Proof.
  revert a. induction ks as [|x ks IH]; intros a H; simpl; [reflexivity|].
  unfold deleteAll in *. simpl. rewrite IH.
  - apply lookup_delete_neq. intros ->. apply H. now left.
  - intros Hin. apply H. now right.
Qed.

Lemma lookup_deleteAll_None (ks : list string) (k : string) (a : obj) :
  lookup k a = None -> lookup k (deleteAll ks a) = None.
Proof.
  revert a. induction ks as [|x ks IH]; intros a H; simpl; [exact H|].
  unfold deleteAll in *. simpl. apply IH. now apply lookup_delete_None.
Qed.

Lemma lookup_deleteAll_in (ks : list string) (k : string) (a : obj) :
  In k ks -> lookup k (deleteAll ks a) = None.
Proof.
  revert a. induction ks as [|x ks IH]; intros a H; simpl; [contradiction|].
  unfold deleteAll in *. simpl. destruct H as [->|H].
  - apply (lookup_deleteAll_None ks). apply lookup_delete_eq.
  - now apply IH.
Qed.

Lemma attributeRead_fresh (pm : list (string * string)) (a : obj)
    (f : string) :
  ~ In (mappedKey pm f) (consumedBefore pm f) ->
  attributeRead pm a f = get (mappedKey pm f) a.
Proof.
  intros H. unfold attributeRead, get. now rewrite lookup_deleteAll_notin.
Qed.

Lemma lookup_copy_keys (a : obj) (ks : list string) (p : obj) (k : string) :
  lookup k (fold_left (fun p key => set key (get key a) p) ks p)
  = if existsb (String.eqb k) ks then Some (get k a) else lookup k p.
Proof.
  revert p. induction ks as [|x ks IH]; intros p; simpl; [reflexivity|].
  rewrite IH. destruct (String.eqb k x) eqn:E; simpl.
  - apply String.eqb_eq in E. subst x. rewrite lookup_set_eq.
    now destruct (existsb _ ks).
  - apply String.eqb_neq in E. rewrite lookup_set_neq by exact E.
    reflexivity.
Qed.

Lemma existsb_keys (k : string) (a : obj) :
  existsb (String.eqb k) (keys a)
  = match lookup k a with Some _ => true | None => false end.
Proof.
  induction a as [|[k' v'] a IH]; simpl; [reflexivity|].
  destruct (String.eqb k k'); simpl; auto.
Qed.

Lemma lookup_copyRemaining (p a : obj) (k : string) :
  lookup k (copyRemaining p a)
  = match lookup k a with Some v => Some v | None => lookup k p end.
Proof.
  unfold copyRemaining. rewrite lookup_copy_keys, existsb_keys.
  unfold get. now destruct (lookup k a).
Qed.

Lemma get_buildProfile_kept (pm : list (string * string)) (username : value)
    (ext : extended) (k : string) :
  lookup k (remaining pm username ext) = None ->
  get k (buildProfile pm username ext) = get k (mappedProfile pm username ext).
Proof.
  intros H. unfold get. now rewrite buildProfile_eq, lookup_copyRemaining, H.
Qed.

Lemma push_all (l c : list value) :
  fold_left (fun acc e => push acc (emailRecord e)) l (VArr c)
  = VArr (c ++ map emailRecord l).
Proof.
  revert c. induction l as [|x l IH]; intros c; simpl.
  - now rewrite app_nil_r.
  - rewrite IH, <- app_assoc. reflexivity.
Qed.

Lemma mapEmailsValue_array (v : value) :
  exists l, mapEmailsValue (VArr []) v = VArr l.
Proof.
  destruct v; simpl; eauto.
  destruct (typeof_object _); [eauto|]. rewrite push_all. eauto.
Qed.

Lemma remaining_consumed (pm : list (string * string)) (username : value)
    (ext : extended) (f : string) :
  In f fieldOrder ->
  lookup (mappedKey pm f) (remaining pm username ext) = None.
Proof.
  intros H. rewrite remaining_eq. apply lookup_deleteAll_in.
  now apply in_map.
Qed.

Lemma remaining_absent (pm : list (string * string)) (username : value)
    (ext : extended) (k : string) :
  lookup k (ext_attributes ext) = None ->
  lookup k (remaining pm username ext) = None.
Proof. intros H. rewrite remaining_eq. now apply lookup_deleteAll_None. Qed.

Lemma forallb_scalar_head (l : list value) :
  forallb isScalar l = true -> typeof_object (index0 (VArr l)) = false.
Proof.
  destruct l as [|x l]; simpl; [reflexivity|].
  intros H. apply andb_prop in H. destruct H as [H _].
  unfold isScalar in H. now apply negb_true_iff in H.
Qed.

Lemma forallb_record_head (l : list value) :
  l <> [] -> forallb isRecord l = true ->
  typeof_object (index0 (VArr l)) = true.
Proof.
  destruct l as [|x l]; simpl; [congruence|].
  intros _ H. apply andb_prop in H. destruct H as [H _].
  now destruct x.
Qed.

(** ** The profile: emails, name fields, shape, provider and pass-through *)

(** C3, as amended: when the attribute resolved for [emails] was not
    consumed by an earlier field and no attribute named "emails" is left
    for the final copy, [profile.emails] is: for a sequence of scalars, the
    records [{value: v, type: "default"}] in the same order; for a
    non-empty sequence of structured records, that sequence unchanged; for
    a value that is not a sequence, the one-element sequence holding it. *)
Theorem emails_mapped (pm : list (string * string)) (username : value)
    (ext : extended) (v : value) :
  ~ In (mappedKey pm "emails") (consumedBefore pm "emails") ->
  lookup "emails" (remaining pm username ext) = None ->
  lookup (mappedKey pm "emails") (ext_attributes ext) = Some v ->
  let emails := get "emails" (buildProfile pm username ext) in
  (forall l, v = VArr l -> forallb isScalar l = true ->
     emails = VArr (map emailRecord l))
  /\ (forall l, v = VArr l -> l <> [] -> forallb isRecord l = true ->
     emails = v)
  /\ (isArray v = false -> emails = VArr [v]).
Proof.
  intros Hfresh Hleft Hv emails.
  assert (He : emails = mapEmailsValue (VArr []) v).
  { subst emails. rewrite get_buildProfile_kept by exact Hleft.
    unfold mappedProfile, get at 1. cbn [lookup String.eqb Ascii.eqb Bool.eqb].
    rewrite attributeRead_fresh by exact Hfresh.
    unfold get. now rewrite Hv. }
  rewrite He. repeat split.
  - intros l -> Hl. unfold mapEmailsValue.
    rewrite (forallb_scalar_head l Hl). now rewrite push_all.
  - intros l -> Hne Hl. unfold mapEmailsValue.
    now rewrite (forallb_record_head l Hne Hl).
  - intros Hna. now destruct v.
Qed.

(** C3: an attribute named "emails" that the loop did not consume replaces
    the mapped sequence in the final copy. *)
Lemma emails_mapped_counterexample :
  let p := buildProfile [("emails", "mail")] (VStr "jane")
             (mkExtended VUndef VUndef
                [("mail", VArr [VStr "a@x.com"]); ("emails", VStr "zzz")]) in
  get "emails" p = VStr "zzz"
  /\ get "emails" p <> VArr [emailRecord (VStr "a@x.com")].
Proof. split; [reflexivity | discriminate]. Qed.

Lemma emails_mapped_witness :
  get "emails"
    (buildProfile [("emails", "defaultmail")] (VStr "jane")
       (mkExtended VUndef VUndef
          [("defaultmail", VArr [VStr "a@x.com"; VStr "b@x.com"])]))
  = VArr [emailRecord (VStr "a@x.com"); emailRecord (VStr "b@x.com")].
Proof.
  refine (proj1 (emails_mapped [("emails", "defaultmail")] (VStr "jane")
                   (mkExtended VUndef VUndef
                      [("defaultmail", VArr [VStr "a@x.com"; VStr "b@x.com"])])
                   (VArr [VStr "a@x.com"; VStr "b@x.com"]) _ eq_refl eq_refl)
                _ eq_refl eq_refl).
  not_in.
Defined.

(** C4, as amended: when no attribute named "name" is left for the final
    copy, a name field whose resolved attribute is present and was not
    consumed by an earlier field is the first element of the attribute's
    value when that is a sequence, and the value itself otherwise. *)
Theorem name_fields_mapped (pm : list (string * string)) (username : value)
    (ext : extended) (f : string) (v : value) :
  In f nameFields ->
  ~ In (mappedKey pm f) (consumedBefore pm f) ->
  lookup "name" (remaining pm username ext) = None ->
  lookup (mappedKey pm f) (ext_attributes ext) = Some v ->
  let field := getProp f (get "name" (buildProfile pm username ext)) in
  (forall l, v = VArr l -> field = index0 v)
  /\ (isArray v = false -> field = v).
Proof.
  intros Hf Hfresh Hleft Hv field.
  assert (He : field = firstOrSelf v).
  { subst field. rewrite get_buildProfile_kept by exact Hleft.
    unfold mappedProfile, get at 1. cbn [lookup String.eqb Ascii.eqb Bool.eqb].
    assert (Hr : attributeRead pm (ext_attributes ext) f = v).
    { rewrite attributeRead_fresh by exact Hfresh. unfold get. now rewrite Hv. }
    simpl in Hf. destruct Hf as [<-|[<-|[<-|[]]]];
      cbn [getProp get lookup String.eqb Ascii.eqb Bool.eqb];
      now rewrite Hr. }
  rewrite He. unfold firstOrSelf. split.
  - now intros l ->.
  - now intros ->.
Qed.

(** C4: on the specification's own example the absent [middleName] is
    [undefined],
    not [null]; and an attribute named "name" that the loop did not consume
    replaces the whole name record in the final copy. *)
Lemma name_fields_mapped_counterexample :
  (let p := buildProfile [("familyName", "surname"); ("givenName", "givenname")]
              (VStr "jane")
              (mkExtended VUndef VUndef
                 [("surname", VStr "Doe"); ("givenname", VStr "Jane")]) in
   get "name" p
   = VObj [("familyName", VStr "Doe"); ("givenName", VStr "Jane");
           ("middleName", VUndef)]
   /\ getProp "middleName" (get "name" p) <> VNull)
  /\ (let p := buildProfile [] (VStr "jane")
                 (mkExtended VUndef VUndef
                    [("name", VStr "Jane Doe"); ("givenName", VStr "Jane")]) in
      get "name" p = VStr "Jane Doe"
      /\ getProp "givenName" (get "name" p) <> VStr "Jane").
Proof. repeat split; discriminate. Qed.

Lemma name_fields_mapped_witness :
  getProp "familyName"
    (get "name"
       (buildProfile [("familyName", "surname"); ("givenName", "givenname")]
          (VStr "jane")
          (mkExtended VUndef VUndef
             [("surname", VStr "Doe"); ("givenname", VArr [VStr "Jane"])])))
  = VStr "Doe".
Proof.
  refine (proj2 (name_fields_mapped
                   [("familyName", "surname"); ("givenName", "givenname")]
                   (VStr "jane")
                   (mkExtended VUndef VUndef
                      [("surname", VStr "Doe"); ("givenname", VArr [VStr "Jane"])])
                   "familyName" (VStr "Doe") _ _ eq_refl eq_refl) eq_refl).
  - simpl; auto.
  - not_in.
Defined.

(** C5, as amended: the profile always has a [name] and an [emails]
    property; [name] is the record of the three name fields unless an
    attribute named "name" is left for the final copy, and [emails] is a
    sequence unless an attribute named "emails" is left for it. *)
Theorem profile_shape (pm : list (string * string)) (username : value)
    (ext : extended) :
  let p := buildProfile pm username ext in
  In "name" (keys p) /\ In "emails" (keys p)
  /\ (lookup "name" (remaining pm username ext) = None ->
      exists f g m,
        get "name" p
        = VObj [("familyName", f); ("givenName", g); ("middleName", m)])
  /\ (lookup "emails" (remaining pm username ext) = None ->
      exists l, get "emails" p = VArr l).
Proof.
  intros p. subst p. repeat split.
  - apply lookup_In_keys. rewrite buildProfile_eq, lookup_copyRemaining.
    destruct (lookup "name" (remaining pm username ext)); discriminate.
  - apply lookup_In_keys. rewrite buildProfile_eq, lookup_copyRemaining.
    destruct (lookup "emails" (remaining pm username ext)); discriminate.
  - intros H. rewrite get_buildProfile_kept by exact H.
    unfold mappedProfile, get. cbn [lookup String.eqb Ascii.eqb Bool.eqb].
    eauto.
  - intros H. rewrite get_buildProfile_kept by exact H.
    unfold mappedProfile, get. cbn [lookup String.eqb Ascii.eqb Bool.eqb].
    apply mapEmailsValue_array.
Qed.

(** C5: with an attribute named "name" left for the final copy,
    [profile.name] is that attribute's value and has no name fields; the
    same for "emails". *)
Lemma profile_shape_counterexample :
  let p := buildProfile [("emails", "mail")] (VStr "jane")
             (mkExtended VUndef VUndef
                [("name", VStr "Jane Doe"); ("emails", VStr "jane@x.com")]) in
  get "name" p = VStr "Jane Doe"
  /\ getProp "familyName" (get "name" p) = VUndef
  /\ get "emails" p = VStr "jane@x.com"
  /\ isArray (get "emails" p) = false.
Proof. repeat split. Qed.

Lemma profile_shape_witness :
  exists f g m,
    get "name"
      (buildProfile [] (VStr "jane") (mkExtended VUndef VUndef []))
    = VObj [("familyName", f); ("givenName", g); ("middleName", m)].
Proof.
  exact (proj1 (proj2 (proj2
           (profile_shape [] (VStr "jane") (mkExtended VUndef VUndef []))))
           eq_refl).
Defined.

(** C6: every attribute left when the mapping loop ends is on the profile
    under its own name with its own value; and an attribute whose name is
    neither a fixed profile field nor a name the property map refers to is
    left by the loop, hence copied. *)
Theorem remaining_copied (pm : list (string * string)) (username : value)
    (ext : extended) :
  (forall k v, lookup k (remaining pm username ext) = Some v ->
     lookup k (buildProfile pm username ext) = Some v)
  /\ (forall k v,
        ~ In k fieldOrder ->
        (forall f, pm_lookup f pm <> Some k) ->
        lookup k (ext_attributes ext) = Some v ->
        lookup k (remaining pm username ext) = Some v
        /\ lookup k (buildProfile pm username ext) = Some v).
Proof.
  assert (H1 : forall k v, lookup k (remaining pm username ext) = Some v ->
                 lookup k (buildProfile pm username ext) = Some v).
  { intros k v H. now rewrite buildProfile_eq, lookup_copyRemaining, H. }
  split; [exact H1|].
  intros k v Hfix Hpm Ha.
  assert (Hr : lookup k (remaining pm username ext) = Some v).
  { rewrite remaining_eq, lookup_deleteAll_notin; [exact Ha|].
    intros Hin. apply in_map_iff in Hin. destruct Hin as (f & Hf & Hin).
    unfold mappedKey, str_or in Hf.
    destruct (pm_lookup f pm) as [x|] eqn:E.
    - destruct (String.eqb x "") eqn:Ex.
      + subst f. contradiction.
      + subst x. now apply (Hpm f).
    - subst f. contradiction. }
  split; [exact Hr | now apply H1].
Qed.

Lemma remaining_copied_witness :
  lookup "eduPersonAffiliation"
    (buildProfile [("familyName", "surname")] (VStr "jane")
       (mkExtended VUndef VUndef
          [("surname", VStr "Doe"); ("eduPersonAffiliation", VStr "staff")]))
  = Some (VStr "staff").
Proof.
  refine (proj2 (proj2
            (remaining_copied [("familyName", "surname")] (VStr "jane")
               (mkExtended VUndef VUndef
                  [("surname", VStr "Doe");
                   ("eduPersonAffiliation", VStr "staff")]))
            "eduPersonAffiliation" (VStr "staff") _ _ eq_refl)).
  - not_in.
  - intros f. simpl. destruct (String.eqb f "familyName"); discriminate.
Defined.

(** C10, as amended: when the attribute resolved for [provider] holds a
    truthy value and no attribute named "provider" is left for the final
    copy, [profile.provider] is that value, or its first element when it
    is a sequence, and not the tag of the profile literal. *)
Theorem provider_from_attribute (pm : list (string * string))
    (username : value) (ext : extended) (v : value) :
  lookup (mappedKey pm "provider") (ext_attributes ext) = Some v ->
  truthy v = true ->
  lookup "provider" (remaining pm username ext) = None ->
  get "provider" (buildProfile pm username ext)
  = if isArray v then index0 v else v.
Proof.
  intros Hv Ht Hleft. rewrite get_buildProfile_kept by exact Hleft.
  unfold mappedProfile, get at 1. cbn [lookup String.eqb Ascii.eqb Bool.eqb].
  unfold attributeRead, consumedBefore. cbn [takeUntil fieldOrder String.eqb
    Ascii.eqb Bool.eqb map deleteAll fold_left].
  unfold get. rewrite Hv. unfold otherValue. now rewrite Ht.
Qed.

(** C10: with the provider mapped to another attribute, an attribute
    named "provider" wins in the final copy. *)
Lemma provider_from_attribute_counterexample :
  let ext := mkExtended VUndef VUndef
               [("idp", VStr "X"); ("provider", VStr "Y")] in
  let p := buildProfile [("provider", "idp")] (VStr "jane") ext in
  lookup (mappedKey [("provider", "idp")] "provider") (ext_attributes ext)
  = Some (VStr "X")
  /\ get "provider" p = VStr "Y"
  /\ get "provider" p <> VStr "X".
Proof. repeat split; discriminate. Qed.

Lemma provider_from_attribute_witness :
  get "provider"
    (buildProfile [] (VStr "jane")
       (mkExtended VUndef VUndef [("provider", VArr [VStr "ldap"; VStr "x"])]))
  = VStr "ldap".
Proof.
  exact (provider_from_attribute [] (VStr "jane")
           (mkExtended VUndef VUndef
              [("provider", VArr [VStr "ldap"; VStr "x"])])
           (VArr [VStr "ldap"; VStr "x"]) eq_refl eq_refl eq_refl).
Defined.

(** ** The proxy ticket broker *)

(** C7: without session storage the completion callback gets the
    [NoSession] error, without a record under the session key the
    [NotAuthenticated] error, with a record that holds no PGTIOU the
    [MissingProxyGrant] error; each time it gets the error alone and the
    CAS client's proxy-ticket exchange is not called. *)
Theorem getProxyTicket_failures
    (self : CasStrategy) (req : request) (targetService : string) :
  let a := getProxyTicket self req targetService in
  (session req = None -> a = Done [NoSession] /\ callsExchange a = false)
  /\ (forall s, session req = Some s ->
      lookup (casSessionKey self) s = None ->
      a = Done [NotAuthenticated] /\ callsExchange a = false)
  /\ (forall s entry, session req = Some s ->
      lookup (casSessionKey self) s = Some (VObj entry) ->
      lookup "PGTIOU" entry = None ->
      a = Done [MissingProxyGrant] /\ callsExchange a = false).
Proof.
  intros a. subst a. unfold getProxyTicket. repeat split.
  - now rewrite H.
  - now rewrite H.
  - unfold get. now rewrite H, H0.
  - unfold get. now rewrite H, H0.
  - unfold get. rewrite H, H0. simpl. unfold get. now rewrite H1.
  - unfold get. rewrite H, H0. simpl. unfold get. now rewrite H1.
Qed.

Lemma getProxyTicket_failures_witness :
  getProxyTicket demoStrategy
    {| _passport := true;
       originalUrl := Some "/data";
       url := "/data";
       headers := [];
       protocol := None;
       query := Some [];
       session := Some [] |}
    "http://service.example.com/get/my/data"
  = Done [NotAuthenticated].
Proof.
  exact (proj1 (proj1 (proj2
           (getProxyTicket_failures demoStrategy
              {| _passport := true;
                 originalUrl := Some "/data";
                 url := "/data";
                 headers := [];
                 protocol := None;
                 query := Some [];
                 session := Some [] |}
              "http://service.example.com/get/my/data"))
           [] eq_refl eq_refl)).
Defined.

(** ** The constructor *)

(** X1: construction fails exactly when no verify callback is given or the
    [casURL] option is missing or empty; the missing callback is reported
    first; and a verify callback given alone, in the place of the options,
    always fails for the missing [casURL]. *)
Theorem construct_errors (arg : firstArg) (verify : bool) :
  construct ArgFunction verify
  = TypeError "CasStrategy requires a casURL option"
  /\ (arg <> ArgFunction ->
      construct arg false = TypeError "CasStrategy requires a verify callback")
  /\ construct ArgUndefined true
     = TypeError "CasStrategy requires a casURL option"
  /\ (forall o,
        (casURL o = "" ->
         construct (ArgOptions o) true
         = TypeError "CasStrategy requires a casURL option")
        /\ (casURL o <> "" -> exists s, construct (ArgOptions o) true = Built s)).
Proof.
  repeat split.
  - destruct arg; [reflexivity | congruence | reflexivity].
  - intros H. unfold construct, newCasStrategy. simpl. now rewrite H.
  - intros H. unfold construct, newCasStrategy. simpl.
    apply String.eqb_neq in H. rewrite H. eauto.
Qed.

(** X2: a strategy that was built has a non-empty CAS base URL, the one of
    the options; a non-empty session key, "cas" unless a non-empty one was
    given; a PGT URL that is absent or non-empty; and the property map of
    the options, empty when none was given. *)
Theorem construct_invariants (arg : firstArg) (verify : bool)
    (s : CasStrategy) :
  construct arg verify = Built s ->
  exists o,
    arg = ArgOptions o /\ verify = true
    /\ casBaseUrl s = casURL o /\ casBaseUrl s <> ""
    /\ casSessionKey s <> ""
    /\ (sessionKey o = None \/ sessionKey o = Some "" -> casSessionKey s = "cas")
    /\ (forall k, k <> "" -> sessionKey o = Some k -> casSessionKey s = k)
    /\ (casPgtUrl s = None \/ exists u, casPgtUrl s = Some u /\ u <> "")
    /\ str_truthy (casPgtUrl s) = str_truthy (pgtURL o)
    /\ casPropertyMap s = match propertyMap o with Some m => m | None => [] end.
Proof.
  intros H. destruct arg as [o| |]; try (destruct verify; discriminate H).
  destruct verify; [|discriminate H].
  unfold construct, newCasStrategy in H. simpl in H.
  destruct (String.eqb (casURL o) "") eqn:E; [discriminate H|].
  apply String.eqb_neq in E. inversion H; subst s; clear H. simpl.
  exists o. repeat split; auto.
  - unfold str_or. destruct (sessionKey o) as [k|]; [|discriminate].
    destruct (String.eqb k "") eqn:Ek; [discriminate|].
    now apply String.eqb_neq in Ek.
  - intros [-> | ->]; reflexivity.
  - intros k Hk ->. unfold str_or. apply String.eqb_neq in Hk. now rewrite Hk.
  - destruct (pgtURL o) as [u|]; simpl; [|now left].
    destruct (String.eqb u "") eqn:Eu; simpl; [now left|].
    right. exists u. split; [reflexivity | now apply String.eqb_neq in Eu].
  - destruct (pgtURL o) as [u|]; simpl; [|reflexivity].
    destruct (String.eqb u "") eqn:Eu; simpl; [reflexivity|].
    now rewrite Eu.
Qed.

Lemma construct_invariants_witness :
  exists s,
    construct (ArgOptions {| casURL := "https://signin.example.com/cas";
                             pgtURL := Some "";
                             propertyMap := None;
                             sessionKey := None;
                             passReqToCallback := false |}) true = Built s
    /\ casSessionKey s = "cas" /\ casPgtUrl s = None.
Proof.
  eexists. split; [reflexivity|].
  destruct (construct_invariants
              (ArgOptions {| casURL := "https://signin.example.com/cas";
                             pgtURL := Some "";
                             propertyMap := None;
                             sessionKey := None;
                             passReqToCallback := false |}) true _ eq_refl)
    as (o & Ho & _ & _ & _ & _ & Hk & _).
  split; [|reflexivity].
  apply Hk. inversion Ho. now left.
Defined.

(** ** The request dispatch *)

Lemma str_or_nonempty (s : option string) (d : string) :
  d <> "" -> str_or s d <> "".
Proof.
  intros Hd. unfold str_or. destruct s as [x|]; [|exact Hd].
  destruct (String.eqb x "") eqn:E; [exact Hd|]. now apply String.eqb_neq in E.
Qed.

(** X3: whatever the request, the service URL is formatted from a query
    without [ticket] property, in which every other parameter of the
    request is as it was parsed, and from a protocol that is never empty. *)
Theorem service_parts_invariant
    (url_parse : string -> parsedUrl) (req : request) :
  let parts := serviceParts url_parse req in
  lookup "ticket" (fmt_query parts) = None
  /\ (forall k, k <> "ticket" ->
        lookup k (fmt_query parts)
        = lookup k (parsedQuery (url_parse (requestUrl req))))
  /\ fmt_protocol parts <> "".
Proof.
  intros parts. subst parts. unfold serviceParts. cbn [fmt_query fmt_protocol].
  repeat split.
  - apply lookup_delete_eq.
  - intros k Hk. now apply lookup_delete_neq.
  - apply str_or_nonempty. discriminate.
Qed.

(** X4: with passport initialised, a ticket that is falsy, the empty text
    of [?ticket=] included, sends the request to the CAS login like a
    missing one: one redirect (307) and no call of [cas.validate]. *)
Theorem authenticate_falsy_ticket
    (url_parse : string -> parsedUrl) (url_format : urlObject -> string)
    (StringToNumber : string -> option Z) (self : CasStrategy) (req : request) :
  _passport req = true ->
  truthy (ticketOf url_parse req) = false ->
  authenticate url_parse url_format StringToNumber self req
  = Redirect (casBaseUrl self ++ "/login?service="
              ++ encodeURIComponent (service url_parse url_format req)) 307
  /\ callsValidate (authenticate url_parse url_format StringToNumber self req)
     = false.
Proof.
  intros Hp Ht. unfold authenticate. rewrite Hp, Ht. simpl. auto.
Qed.

Lemma authenticate_falsy_ticket_witness :
  ticketOf plainParse (demoRequest "/app?a=1&ticket=" []) = VStr ""
  /\ authenticate plainParse plainFormat plainToNumber demoStrategy
       (demoRequest "/app?a=1&ticket=" [])
     = Redirect
         "https://signin.example.com/cas/login?service=https%3A%2F%2Fapp.example.com%2Fapp%3Fa%3D1"
         307.
Proof.
  split; [reflexivity|].
  exact (proj1 (authenticate_falsy_ticket plainParse plainFormat plainToNumber
                  demoStrategy (demoRequest "/app?a=1&ticket=" [])
                  eq_refl eq_refl)).
Defined.

Lemma unreserved_noSep (c : ascii) :
  isUnreserved c = true -> negb (isSep c) = true.
Proof.
  destruct c as [[] [] [] [] [] [] [] []]; vm_compute; congruence.
Qed.

Lemma hex_noSep (c : ascii) :
  negb (isSep (hexDigit (nat_of_ascii c / 16))) = true
  /\ negb (isSep (hexDigit (nat_of_ascii c mod 16))) = true.
Proof.
  destruct c as [[] [] [] [] [] [] [] []]; vm_compute; auto.
Qed.

Lemma encode_noSep (s : string) : noSep (encodeURIComponent s) = true.
Proof.
  unfold noSep. induction s as [|c s IH]; [reflexivity|].
  cbn [encodeURIComponent]. destruct (isUnreserved c) eqn:E.
  - cbn [allChars]. now rewrite (unreserved_noSep c E), IH.
  - destruct (hex_noSep c) as [H1 H2].
    cbn [allChars]. rewrite H1, H2, IH. reflexivity.
Qed.

(** X5: when [authenticate] answers a request with a redirect, the status
    is 307 and the location is the CAS base URL, [/login?service=] and one
    parameter value free of [?], [&] and [=] that decodes to the service
    URL: the service URL cannot add parameters to the login URL. *)
Theorem login_redirect_one_parameter
    (url_parse : string -> parsedUrl) (url_format : urlObject -> string)
    (StringToNumber : string -> option Z) (self : CasStrategy) (req : request)
    (location : string) (status : Z) :
  authenticate url_parse url_format StringToNumber self req
  = Redirect location status ->
  status = 307
  /\ exists e,
       location = casBaseUrl self ++ "/login?service=" ++ e
       /\ noSep e = true
       /\ decodeURIComponent e = Some (service url_parse url_format req).
Proof.
  unfold authenticate. intros H.
  destruct (negb (_passport req)); [discriminate H|].
  destruct (negb (truthy (ticketOf url_parse req))); [|discriminate H].
  inversion H; subst. split; [reflexivity|].
  eexists. split; [reflexivity|]. split.
  - apply encode_noSep.
  - apply decode_encode.
Qed.

Lemma login_redirect_one_parameter_witness :
  exists e,
    "https://signin.example.com/cas/login?service=https%3A%2F%2Fapp.example.com%2Fapp%3Fa%3D1%26b%3D2"
    = casBaseUrl demoStrategy ++ "/login?service=" ++ e
    /\ noSep e = true
    /\ decodeURIComponent e = Some "https://app.example.com/app?a=1&b=2".
Proof.
  exact (proj2 (login_redirect_one_parameter plainParse plainFormat
                  plainToNumber demoStrategy (demoRequest "/app?a=1&b=2" [])
                  _ _ eq_refl)).
Defined.

(** X6: a request played to its end makes at most one call of
    [cas.validate], at most one redirect or one call of the verify
    callback and never both, and ends with exactly one of passport's
    actions or a throw, which is its last call. *)
Theorem authenticate_single_effect
    (url_parse : string -> parsedUrl) (url_format : urlObject -> string)
    (StringToNumber : string -> option Z) (self : CasStrategy) (req : request)
    (r : validation) (d : value * value * value) :
  let calls :=
    play r d (authenticate url_parse url_format StringToNumber self req) in
  (countCalls isValidateCall calls <= 1)%nat
  /\ (countCalls isRedirectCall calls + countCalls isVerifyCall calls <= 1)%nat
  /\ countCalls isFinal calls = 1%nat
  /\ isFinal (last calls (CallValidate VUndef "")) = true.
Proof.
  intros calls. subst calls. unfold authenticate.
  destruct (negb (_passport req)); [simpl; auto|].
  destruct (negb (truthy (ticketOf url_parse req))); [simpl; auto|].
  cbn [play]. unfold validated.
  destruct (truthy (v_err r)).
  - destruct (query req); [|simpl; auto].
    destruct (looseNeqNumber _ _ _); simpl; auto.
  - destruct (session req); [|simpl; auto].
    cbn [play]. unfold verified.
    destruct (truthy (fst (fst d))); [simpl; auto|].
    destruct (negb (truthy (snd (fst d)))); simpl; auto.
Qed.

(** X7: a successful handshake is the call of [cas.validate] with the
    ticket and the service URL, then the call of the verify callback with
    the username and the mapped profile, then one action decided by the
    completion [(err, user, info)]: [error(err)] for a truthy [err] even
    when a user is given, [fail(info)] for a falsy user, [success(user,
    info)] otherwise. *)
Theorem handshake_outcome
    (url_parse : string -> parsedUrl) (url_format : urlObject -> string)
    (StringToNumber : string -> option Z) (self : CasStrategy) (req : request)
    (r : validation) (s : obj) (err user info : value) :
  _passport req = true ->
  truthy (ticketOf url_parse req) = true ->
  truthy (v_err r) = false ->
  session req = Some s ->
  play r (err, user, info)
    (authenticate url_parse url_format StringToNumber self req)
  = [ CallValidate (ticketOf url_parse req) (service url_parse url_format req);
      CallVerify (_passReqToCallback self) (v_username r)
        (buildProfile (casPropertyMap self) (v_username r) (v_extended r));
      if truthy err then CallError err
      else if truthy user then CallSuccess user info
      else CallFail info ].
Proof.
  intros Hp Ht He Hs.
  rewrite authenticate_with_ticket by assumption.
  cbn [play]. rewrite (validated_success _ _ _ _ s) by assumption.
  cbn [play fst snd]. unfold verified.
  destruct (truthy err); [reflexivity|].
  destruct (truthy user); reflexivity.
Qed.

Lemma handshake_outcome_witness :
  play (demoValidation []) (VNull, VBool false, VStr "unknown user")
    (authenticate plainParse plainFormat plainToNumber demoStrategy
       (demoRequest "/app?ticket=ST-1-abc" [("ticket", VStr "ST-1-abc")]))
  = [ CallValidate (VStr "ST-1-abc") "https://app.example.com/app";
      CallVerify false (VStr "jane")
        (buildProfile [] (VStr "jane") (v_extended (demoValidation [])));
      CallFail (VStr "unknown user") ].
Proof.
  exact (handshake_outcome plainParse plainFormat plainToNumber demoStrategy
           (demoRequest "/app?ticket=ST-1-abc" [("ticket", VStr "ST-1-abc")])
           (demoValidation [])
           [("cas", VObj [("PGTIOU", VStr "PGTIOU-1-old")])]
           VNull (VBool false) (VStr "unknown user")
           eq_refl eq_refl eq_refl eq_refl).
Defined.

(** ** The retry window *)

Lemma retryToken_bounds (now : Z) :
  60000 * retryToken now - 30000 <= now < 60000 * retryToken now + 30000.
Proof.
  unfold retryToken.
  pose proof (Z.div_mod (now + 30000) 60000 ltac:(lia)) as H.
  pose proof (Z.mod_pos_bound (now + 30000) 60000 ltac:(lia)) as Hb.
  lia.
Qed.

(** X8: the token of a clock reading [t] is the integer [k] with
    [60000 k - 30000 <= t < 60000 k + 30000]: it never decreases as time
    advances, two readings with the same token are less than a minute
    apart, and two readings a minute or more apart have different tokens. *)
Theorem retryToken_window (t1 t2 : Z) :
  (60000 * retryToken t1 - 30000 <= t1 < 60000 * retryToken t1 + 30000)
  /\ (t1 <= t2 -> retryToken t1 <= retryToken t2)
  /\ (retryToken t1 = retryToken t2 -> Z.abs (t2 - t1) < 60000)
  /\ (t1 + 60000 <= t2 -> retryToken t1 < retryToken t2).
Proof.
  pose proof (retryToken_bounds t1) as H1.
  pose proof (retryToken_bounds t2) as H2.
  repeat split; lia.
Qed.

(** X9: a request that carries the marker written at the clock reading
    [t0] and whose validation fails at [v_now r] is rejected with the
    validation error only when the two readings are less than a minute
    apart; a minute or more after [t0] it is redirected once more. *)
Theorem retry_guard_window
    (StringToNumber : string -> option Z) (self : CasStrategy)
    (req : request) (r : validation) (q : obj) (s : string) (t0 : Z) :
  truthy (v_err r) = true ->
  query req = Some q ->
  lookup "_cas_retry" q = Some (VStr s) ->
  StringToNumber s = Some (retryToken t0) ->
  let a := validated StringToNumber self req r in
  (a = Fail (v_err r) \/
   a = Redirect (retryUrl (requestUrl req) (retryToken (v_now r))) 307)
  /\ (a = Fail (v_err r) -> Z.abs (v_now r - t0) < 60000)
  /\ (t0 + 60000 <= v_now r ->
      a = Redirect (retryUrl (requestUrl req) (retryToken (v_now r))) 307).
Proof.
  intros He Hq0 Hq Hs a.
  assert (Ha : a = if negb (retryToken t0 =? retryToken (v_now r))
                   then Redirect (retryUrl (requestUrl req)
                                    (retryToken (v_now r))) 307
                   else Fail (v_err r)).
  { subst a. unfold validated, get. rewrite He, Hq0, Hq.
    cbn [looseNeqNumber]. now rewrite Hs. }
  pose proof (retryToken_bounds t0) as B0.
  pose proof (retryToken_bounds (v_now r)) as B1.
  destruct (Z.eqb_spec (retryToken t0) (retryToken (v_now r))) as [E|E];
    simpl in Ha; rewrite Ha.
  - split; [now left|]. split.
    + intros _. lia.
    + intros Hlate. exfalso. lia.
  - split; [now right|]. split.
    + intros H. discriminate H.
    + reflexivity.
Qed.

Lemma retry_guard_window_witness :
  validated plainToNumber demoStrategy
    (demoRequest "/app?_cas_retry=28500000&ticket=ST-2"
       [("_cas_retry", VStr "28500000"); ("ticket", VStr "ST-2")])
    (demoFailure 1710000060000)
  = Redirect "/app?_cas_retry=28500001" 307.
Proof.
  refine (proj2 (proj2
            (retry_guard_window plainToNumber demoStrategy
               (demoRequest "/app?_cas_retry=28500000&ticket=ST-2"
                  [("_cas_retry", VStr "28500000"); ("ticket", VStr "ST-2")])
               (demoFailure 1710000060000)
               [("_cas_retry", VStr "28500000"); ("ticket", VStr "ST-2")]
               "28500000" 1710000000000
               eq_refl eq_refl eq_refl eq_refl)) _).
  vm_compute. discriminate.
Defined.

(** ** Edges of the two replacements *)

Lemma unmatched_no_underscore (pre suf : string) :
  allChars (fun c => negb (Ascii.eqb c "_")) pre = true ->
  unmatched matchRetry pre suf.
Proof.
  induction pre as [|c pre IH]; intros H; [exact I|].
  simpl in H. apply andb_prop in H. destruct H as [Hc Hpre].
  apply negb_true_iff in Hc. split; [|now apply IH].
  change (String c pre ++ suf) with (String c (pre ++ suf)).
  unfold matchRetry. cbn [stripPrefix]. rewrite Ascii.eqb_sym, Hc.
  reflexivity.
Qed.

Lemma matchRetry_end (ds : string) :
  runOf isDigit ds = true -> matchRetry ("_cas_retry=" ++ ds) = Some "".
Proof.
  intros H. destruct (runOf_inv _ _ H) as (c & s' & -> & Hall).
  unfold matchRetry. rewrite stripPrefix_app, span_all by exact Hall.
  reflexivity.
Qed.

Lemma matchRetry_other (ds : string) (c : ascii) (r : string) :
  runOf isDigit ds = true -> isDigit c = false -> c <> "&"%char ->
  matchRetry ("_cas_retry=" ++ ds ++ String c r) = Some (String c r).
Proof.
  intros H Hc Hne. destruct (runOf_inv _ _ H) as (d & s' & -> & Hall).
  unfold matchRetry. rewrite stripPrefix_app, span_run by assumption.
  destruct c as [[] [] [] [] [] [] [] []]; try reflexivity.
  exfalso. now apply Hne.
Qed.

(** X10: the marker pattern is not anchored to a parameter: after a text
    without underscore, [_cas_retry=<digits>] is removed wherever it
    stands, with the [&] that follows it if there is one; the separator
    before it stays, and so does the start of a longer name it ends. *)
Theorem removeRetry_unanchored (pre ds : string) :
  allChars (fun c => negb (Ascii.eqb c "_")) pre = true ->
  runOf isDigit ds = true ->
  removeRetry (pre ++ "_cas_retry=" ++ ds) = pre
  /\ (forall r, removeRetry (pre ++ "_cas_retry=" ++ ds ++ "&" ++ r) = pre ++ r)
  /\ (forall c r, isDigit c = false -> c <> "&"%char ->
        removeRetry (pre ++ "_cas_retry=" ++ ds ++ String c r)
        = pre ++ String c r).
Proof.
  intros Hpre Hds. repeat split.
  - rewrite removeRetry_skip by now apply unmatched_no_underscore.
    rewrite removeRetry_eq, matchRetry_end by exact Hds.
    apply append_empty_r.
  - intros r. rewrite removeRetry_skip by now apply unmatched_no_underscore.
    now rewrite removeRetry_eq, matchRetry_here.
  - intros c r Hc Hne.
    rewrite removeRetry_skip by now apply unmatched_no_underscore.
    now rewrite removeRetry_eq, matchRetry_other.
Qed.

Lemma removeRetry_unanchored_witness :
  removeRetry "/app?a=1&_cas_retry=28500000" = "/app?a=1&"
  /\ removeRetry "/app?x_cas_retry=5&a=1" = "/app?xa=1".
Proof.
  split.
  - exact (proj1 (removeRetry_unanchored "/app?a=1&" "28500000"
                    eq_refl eq_refl)).
  - exact (proj1 (proj2 (removeRetry_unanchored "/app?x" "5"
                           eq_refl eq_refl)) "a=1").
Defined.

(** X11: only the first marker is removed: in a target written as plain
    parameters, a second [_cas_retry] parameter after the first one is
    still there after the replacement. *)
Theorem removeRetry_first_only (path : string)
    (ps1 : list (string * string)) (ds : string)
    (ps2 : list (string * string)) (ds2 : string)
    (ps3 : list (string * string)) :
  noSep path = true ->
  forallb plainParam ps1 = true ->
  runOf isDigit ds = true ->
  removeRetry
    (renderUrl path
       (ps1 ++ ("_cas_retry", ds) :: ps2 ++ ("_cas_retry", ds2) :: ps3))
  = renderUrl path (ps1 ++ ps2 ++ ("_cas_retry", ds2) :: ps3).
Proof.
  intros Hp Hps Hds. apply removeRetry_url; auto.
  destruct ps2; discriminate.
Qed.

Lemma removeRetry_first_only_witness :
  removeRetry "/app?a=1&_cas_retry=28499999&_cas_retry=28500000&ticket=ST-1"
  = "/app?a=1&_cas_retry=28500000&ticket=ST-1".
Proof.
  exact (removeRetry_first_only "/app" [("a", "1")] "28499999" []
           "28500000" [("ticket", "ST-1")] eq_refl eq_refl eq_refl).
Defined.

Lemma matchTicket_run (q : ascii) (t : string) (c : ascii) (rest : string) :
  (q = "?" \/ q = "&")%char ->
  runOf isTicketChar t = true ->
  isTicketChar c = false ->
  matchTicket (String q ("ticket=" ++ t ++ String c rest))
  = Some (q, String c rest).
Proof.
  intros Hq Ht Hc. destruct (runOf_inv _ _ Ht) as (d & t' & -> & Hall).
  unfold matchTicket.
  assert (E : Ascii.eqb q "?" || Ascii.eqb q "&" = true)
    by (destruct Hq as [-> | ->]; reflexivity).
  rewrite E, stripPrefix_app, span_run by assumption. reflexivity.
Qed.

(** X12: the ticket pattern stops at the first character that is not a
    word character, a dot or a dash: of a ticket value holding such a
    character only the part before it is replaced, and the rest of the
    value follows the new marker. *)
Theorem replaceTicket_partial (tok pre : string) (q : ascii)
    (t : string) (c : ascii) (rest : string) :
  noAmp pre = true ->
  (q = "?" \/ q = "&")%char ->
  runOf isTicketChar t = true ->
  isTicketChar c = false ->
  replaceTicket tok (pre ++ String q ("ticket=" ++ t ++ String c rest))
  = pre ++ String q ("_cas_retry=" ++ tok ++ String c rest).
Proof.
  intros Hpre Hq Ht Hc.
  rewrite replaceTicket_skip by exact Hpre.
  now rewrite replaceTicket_eq, matchTicket_run.
Qed.

Lemma replaceTicket_partial_witness :
  retryUrl "/app?ticket=ST-1%2B9" 28500000 = "/app?_cas_retry=28500000%2B9".
Proof.
  exact (replaceTicket_partial "28500000" "/app" "?" "ST-1" "%" "2B9"
           eq_refl (or_introl eq_refl) eq_refl eq_refl).
Defined.

(** ** The proxy ticket broker, after the guards *)

(** X13: [getProxyTicket] calls the CAS client's exchange exactly when the
    request has a session, the session holds a truthy record under the
    session key and that record holds a truthy PGTIOU; it then passes that
    PGTIOU and the target service, and hands both results of the exchange
    on to the completion callback. Otherwise the completion callback gets
    one of the three errors, alone. *)
Theorem getProxyTicket_exchange
    (self : CasStrategy) (req : request) (targetService : string) :
  let a := getProxyTicket self req targetService in
  let ready :=
    match session req with
    | Some s =>
        truthy (get (casSessionKey self) s)
        && truthy (getProp "PGTIOU" (get (casSessionKey self) s))
    | None => false
    end in
  callsExchange a = ready
  /\ (ready = true ->
      forall s, session req = Some s ->
        a = ProxyExchange (getProp "PGTIOU" (get (casSessionKey self) s))
              targetService (fun err PT => Done [err; PT]))
  /\ (ready = false ->
      a = Done [NoSession] \/ a = Done [NotAuthenticated]
      \/ a = Done [MissingProxyGrant]).
Proof.
  intros a ready. subst a ready. unfold getProxyTicket.
  destruct (session req) as [s|]; [|simpl; auto 6 using eq_refl].
  - destruct (truthy (get (casSessionKey self) s)) eqn:Er; simpl.
    + destruct (truthy (getProp "PGTIOU" (get (casSessionKey self) s)))
        eqn:Ep; simpl.
      * repeat split; try discriminate.
        intros _ s0 Hs0. injection Hs0 as <-. reflexivity.
      * repeat split; auto. discriminate.
    + repeat split; auto. discriminate.
  - repeat split; auto. discriminate.
Qed.

Lemma getProxyTicket_exchange_witness :
  callsExchange
    (getProxyTicket demoStrategy (demoRequest "/data" [])
       "http://service.example.com/get/my/data") = true.
Proof.
  exact (proj1 (getProxyTicket_exchange demoStrategy (demoRequest "/data" [])
                  "http://service.example.com/get/my/data")).
Defined.

(** X14: on the session left by a successful validation, a proxy ticket
    request never fails for a missing session or a missing CAS record: it
    calls the exchange with the PGTIOU of that validation when a PGT URL is
    configured and the PGTIOU is truthy, and fails for the missing proxy
    grant otherwise, whatever PGTIOU the session held before. *)
Theorem proxy_after_login
    (self : CasStrategy) (s : obj) (ext : extended) (req : request)
    (targetService : string) :
  session req = Some (storeSession self s ext) ->
  let a := getProxyTicket self req targetService in
  (str_truthy (casPgtUrl self) && truthy (ext_PGTIOU ext) = true ->
     a = ProxyExchange (ext_PGTIOU ext) targetService
           (fun err PT => Done [err; PT]))
  /\ (str_truthy (casPgtUrl self) && truthy (ext_PGTIOU ext) = false ->
     a = Done [MissingProxyGrant]).
Proof.
  intros Hs a. subst a. unfold getProxyTicket.
  rewrite Hs, storeSession_entry.
  destruct (str_truthy (casPgtUrl self)); simpl.
  - unfold get. simpl. destruct (truthy (ext_PGTIOU ext)); split;
      intros H; try discriminate H; reflexivity.
  - split; intros H; try discriminate H; reflexivity.
Qed.

Lemma proxy_after_login_witness :
  getProxyTicket demoStrategy
    (demoRequest "/data" [])
    "http://service.example.com/get/my/data"
  = ProxyExchange (VStr "PGTIOU-1-old") "http://service.example.com/get/my/data"
      (fun err PT => Done [err; PT])
  /\ getProxyTicket demoStrategy
       {| _passport := true;
          originalUrl := Some "/data";
          url := "/data";
          headers := [];
          protocol := None;
          query := Some [];
          session :=
            Some (storeSession demoStrategy
                    [("cas", VObj [("PGTIOU", VStr "PGTIOU-1-old")])]
                    (mkExtended VUndef (VStr "PGTIOU-2-new") [])) |}
       "http://service.example.com/get/my/data"
     = Done [MissingProxyGrant].
Proof.
  split; [reflexivity|].
  exact (proj2 (proxy_after_login demoStrategy
                  [("cas", VObj [("PGTIOU", VStr "PGTIOU-1-old")])]
                  (mkExtended VUndef (VStr "PGTIOU-2-new") [])
                  {| _passport := true;
                     originalUrl := Some "/data";
                     url := "/data";
                     headers := [];
                     protocol := None;
                     query := Some [];
                     session :=
                       Some (storeSession demoStrategy
                               [("cas", VObj [("PGTIOU", VStr "PGTIOU-1-old")])]
                               (mkExtended VUndef (VStr "PGTIOU-2-new") [])) |}
                  "http://service.example.com/get/my/data" eq_refl)
               eq_refl).
Defined.

(** ** Logout *)

(** X15: [logout] calls the host's [req.logout()] first and the CAS
    client's logout once after it; the CAS logout gets the return URL and
    the redirect flag only for a non-empty return URL, an empty one being
    treated like none. *)
Theorem logout_calls (returnUrl : option string) :
  (forall u, u <> "" ->
     logout (Some u) = [ReqLogout; CasLogout [VStr u; VBool true]])
  /\ logout (Some "") = logout None
  /\ logout None = [ReqLogout; CasLogout []]
  /\ hd_error (logout returnUrl) = Some ReqLogout
  /\ List.length (logout returnUrl) = 2%nat.
Proof.
  repeat split.
  - intros u Hu. unfold logout, str_truthy, str_or.
    apply String.eqb_neq in Hu. now rewrite Hu.
  - unfold logout. now destruct (str_truthy returnUrl).
Qed.

(** ** The profile: names, defaults and edges *)

Lemma lookup_mappedProfile (pm : list (string * string)) (username : value)
    (ext : extended) (k : string) :
  lookup k (mappedProfile pm username ext) <> None <-> In k baseKeys.
Proof.
  unfold mappedProfile, baseKeys. cbv zeta. cbn [lookup In].
  destruct (String.eqb_spec k "provider") as [->|H1]; [split; [auto|discriminate]|].
  destruct (String.eqb_spec k "id") as [->|H2]; [split; [auto|discriminate]|].
  destruct (String.eqb_spec k "displayName") as [->|H3];
    [split; [auto|discriminate]|].
  destruct (String.eqb_spec k "name") as [->|H4]; [split; [auto 6|discriminate]|].
  destruct (String.eqb_spec k "emails") as [->|H5];
    [split; [auto 6|discriminate]|].
  split; [congruence|].
  intros [H|[H|[H|[H|[H|[]]]]]]; congruence.
Qed.

(** X16: the profile has exactly the five names of the profile literal and
    the names of the attributes left by the mapping loop. *)
Theorem profile_keys (pm : list (string * string)) (username : value)
    (ext : extended) (k : string) :
  In k (keys (buildProfile pm username ext))
  <-> In k baseKeys \/ In k (keys (remaining pm username ext)).
Proof.
  rewrite !lookup_In_keys, buildProfile_eq, lookup_copyRemaining.
  rewrite <- lookup_mappedProfile with (pm := pm) (username := username)
                                       (ext := ext).
  destruct (lookup k (remaining pm username ext)) as [v|].
  - split; [intros _; right; discriminate | discriminate].
  - split; [now left | intros [H|H]; [exact H | congruence]].
Qed.

(** X17: an attribute the mapping loop consumed is not on the profile under
    its CAS name, unless that name is one of the five names of the profile
    literal. *)
Theorem consumed_not_copied (pm : list (string * string)) (username : value)
    (ext : extended) (f : string) :
  In f fieldOrder ->
  ~ In (mappedKey pm f) baseKeys ->
  lookup (mappedKey pm f) (buildProfile pm username ext) = None.
Proof.
  intros Hf Hbase.
  rewrite buildProfile_eq, lookup_copyRemaining.
  rewrite (remaining_consumed pm username ext f Hf).
  destruct (lookup (mappedKey pm f) (mappedProfile pm username ext)) eqn:E;
    [|reflexivity].
  exfalso. apply Hbase. apply (lookup_mappedProfile pm username ext).
  congruence.
Qed.

Lemma consumed_not_copied_witness :
  let p := buildProfile [("familyName", "surname")] (VStr "jane")
             (mkExtended VUndef VUndef [("surname", VStr "Doe")]) in
  lookup "surname" p = None
  /\ getProp "familyName" (get "name" p) = VStr "Doe".
Proof.
  split; [|reflexivity].
  refine (consumed_not_copied [("familyName", "surname")] (VStr "jane")
            (mkExtended VUndef VUndef [("surname", VStr "Doe")])
            "familyName" _ _).
  - simpl; auto.
  - not_in.
Defined.

Lemma attributeRead_gone (pm : list (string * string)) (a : obj) (f : string) :
  lookup (mappedKey pm f) a = None \/ In (mappedKey pm f) (consumedBefore pm f) ->
  attributeRead pm a f = VUndef.
Proof.
  intros [H|H]; unfold attributeRead, get.
  - now rewrite lookup_deleteAll_None.
  - now rewrite lookup_deleteAll_in.
Qed.

Lemma attributeRead_cases (pm : list (string * string)) (a : obj) (f : string) :
  attributeRead pm a f = VUndef
  \/ attributeRead pm a f = get (mappedKey pm f) a.
Proof.
  destruct (in_dec string_dec (mappedKey pm f) (consumedBefore pm f)) as [H|H].
  - left. apply attributeRead_gone. now right.
  - right. now apply attributeRead_fresh.
Qed.

Lemma get_mapped_emails (pm : list (string * string)) (username : value)
    (ext : extended) :
  get "emails" (mappedProfile pm username ext)
  = mapEmailsValue (VArr []) (attributeRead pm (ext_attributes ext) "emails").
Proof. reflexivity. Qed.

(** X18: with no attribute named "emails" left for the final copy: an
    emails attribute that is absent, or was consumed by an earlier field,
    gives the one-element sequence holding [undefined]; an empty sequence
    gives the empty sequence; and for a non-empty sequence the first
    element alone decides, the whole sequence being kept when it is an
    object and every element being wrapped when it is not. *)
Theorem emails_edges (pm : list (string * string)) (username : value)
    (ext : extended) :
  lookup "emails" (remaining pm username ext) = None ->
  let mk := mappedKey pm "emails" in
  let emails := get "emails" (buildProfile pm username ext) in
  (lookup mk (ext_attributes ext) = None
   \/ In mk (consumedBefore pm "emails") ->
   emails = VArr [VUndef])
  /\ (~ In mk (consumedBefore pm "emails") ->
      lookup mk (ext_attributes ext) = Some (VArr []) ->
      emails = VArr [])
  /\ (forall x l,
        ~ In mk (consumedBefore pm "emails") ->
        lookup mk (ext_attributes ext) = Some (VArr (x :: l)) ->
        emails = if typeof_object x then VArr (x :: l)
                 else VArr (map emailRecord (x :: l))).
Proof.
  intros Hleft mk emails. subst mk emails.
  rewrite get_buildProfile_kept by exact Hleft.
  rewrite get_mapped_emails. repeat split.
  - intros H. now rewrite attributeRead_gone.
  - intros Hf Hv. rewrite attributeRead_fresh by exact Hf.
    unfold get. now rewrite Hv.
  - intros x l Hf Hv. rewrite attributeRead_fresh by exact Hf.
    unfold get. rewrite Hv. unfold mapEmailsValue. cbn [index0].
    destruct (typeof_object x); [reflexivity|]. now rewrite push_all.
Qed.

Lemma emails_edges_witness :
  get "emails"
    (buildProfile [] (VStr "jane") (mkExtended VUndef VUndef []))
  = VArr [VUndef]
  /\ get "emails"
       (buildProfile [] (VStr "jane")
          (mkExtended VUndef VUndef
             [("emails",
               VArr [VStr "a@x.com"; VObj [("value", VStr "b@x.com")]])]))
     = VArr [emailRecord (VStr "a@x.com");
             emailRecord (VObj [("value", VStr "b@x.com")])].
Proof.
  split.
  - exact (proj1 (emails_edges [] (VStr "jane")
                    (mkExtended VUndef VUndef []) eq_refl)
             (or_introl eq_refl)).
  - refine (proj2 (proj2 (emails_edges [] (VStr "jane")
                            (mkExtended VUndef VUndef
                               [("emails",
                                 VArr [VStr "a@x.com";
                                       VObj [("value", VStr "b@x.com")]])])
                            eq_refl))
              (VStr "a@x.com") [VObj [("value", VStr "b@x.com")]] _ eq_refl).
    not_in.
Defined.

Lemma get_mapped_name (pm : list (string * string)) (username : value)
    (ext : extended) (f : string) :
  In f nameFields ->
  getProp f (get "name" (mappedProfile pm username ext))
  = firstOrSelf (attributeRead pm (ext_attributes ext) f).
Proof.
  intros Hf. simpl in Hf. destruct Hf as [<-|[<-|[<-|[]]]]; reflexivity.
Qed.

(** X19: with no attribute named "name" left for the final copy, a name
    field whose attribute is absent, or was consumed by an earlier field
    mapped to the same attribute, is [undefined]: the [null] of the profile
    literal is overwritten. *)
Theorem name_field_undefined (pm : list (string * string)) (username : value)
    (ext : extended) (f : string) :
  In f nameFields ->
  lookup "name" (remaining pm username ext) = None ->
  lookup (mappedKey pm f) (ext_attributes ext) = None
  \/ In (mappedKey pm f) (consumedBefore pm f) ->
  getProp f (get "name" (buildProfile pm username ext)) = VUndef.
Proof.
  intros Hf Hleft H.
  rewrite get_buildProfile_kept by exact Hleft.
  rewrite get_mapped_name by exact Hf.
  now rewrite attributeRead_gone.
Qed.

Lemma name_field_undefined_witness :
  let p := buildProfile [("familyName", "cn"); ("givenName", "cn")]
             (VStr "jane")
             (mkExtended VUndef VUndef [("cn", VStr "Jane Doe")]) in
  getProp "familyName" (get "name" p) = VStr "Jane Doe"
  /\ getProp "givenName" (get "name" p) = VUndef
  /\ getProp "middleName" (get "name" p) = VUndef.
Proof.
  split; [reflexivity|]. split.
  - refine (name_field_undefined [("familyName", "cn"); ("givenName", "cn")]
              (VStr "jane")
              (mkExtended VUndef VUndef [("cn", VStr "Jane Doe")])
              "givenName" _ eq_refl (or_intror _)); simpl; auto.
  - refine (name_field_undefined [("familyName", "cn"); ("givenName", "cn")]
              (VStr "jane")
              (mkExtended VUndef VUndef [("cn", VStr "Jane Doe")])
              "middleName" _ eq_refl (or_introl eq_refl)); simpl; auto.
Defined.

Lemma get_mapped_plain (pm : list (string * string)) (username : value)
    (ext : extended) (key : string) :
  In key ["provider"; "id"; "displayName"] ->
  get key (mappedProfile pm username ext)
  = otherValue (get key (initProfile username ext))
               (attributeRead pm (ext_attributes ext) key).
Proof.
  intros Hk. simpl in Hk. destruct Hk as [<-|[<-|[<-|[]]]]; reflexivity.
Qed.

(** X20: for [provider], [id] and [displayName], with no attribute of
    that name left for the final copy, an attribute that is absent or holds
    a falsy value that is not a sequence (the empty text, zero, [null],
    [false]) leaves the value of the profile literal: "CAS", the id of the
    validation or else the username, the [displayName] attribute or else
    the username. *)
Theorem plain_field_default_kept (pm : list (string * string))
    (username : value) (ext : extended) (key : string) :
  In key ["provider"; "id"; "displayName"] ->
  lookup key (remaining pm username ext) = None ->
  lookup (mappedKey pm key) (ext_attributes ext) = None
  \/ (exists v, lookup (mappedKey pm key) (ext_attributes ext) = Some v
                /\ isArray v = false /\ truthy v = false) ->
  get key (buildProfile pm username ext) = get key (initProfile username ext).
Proof.
  intros Hk Hleft H.
  rewrite get_buildProfile_kept by exact Hleft.
  rewrite get_mapped_plain by exact Hk.
  destruct (attributeRead_cases pm (ext_attributes ext) key) as [E|E];
    rewrite E; [reflexivity|].
  unfold get at 2. destruct H as [H|(v & H & Ha & Ht)]; rewrite H.
  - reflexivity.
  - unfold otherValue. now rewrite Ha, Ht.
Qed.

Lemma plain_field_default_kept_witness :
  get "id"
    (buildProfile [("id", "guid")] (VStr "jane")
       (mkExtended VUndef VUndef [("guid", VStr "")]))
  = VStr "jane".
Proof.
  refine (plain_field_default_kept [("id", "guid")] (VStr "jane")
            (mkExtended VUndef VUndef [("guid", VStr "")]) "id" _ eq_refl
            (or_intror (ex_intro _ (VStr "") (conj eq_refl (conj eq_refl eq_refl))))).
  simpl; auto.
Defined.

(** X21: for [provider], [id] and [displayName], an attribute holding the
    empty sequence replaces the value of the profile literal by
    [undefined], the first element of that sequence. *)
Theorem empty_sequence_erases_default (pm : list (string * string))
    (username : value) (ext : extended) (key : string) :
  In key ["provider"; "id"; "displayName"] ->
  lookup key (remaining pm username ext) = None ->
  ~ In (mappedKey pm key) (consumedBefore pm key) ->
  lookup (mappedKey pm key) (ext_attributes ext) = Some (VArr []) ->
  get key (buildProfile pm username ext) = VUndef.
Proof.
  intros Hk Hleft Hf Hv.
  rewrite get_buildProfile_kept by exact Hleft.
  rewrite get_mapped_plain by exact Hk.
  rewrite attributeRead_fresh by exact Hf.
  unfold get at 2. now rewrite Hv.
Qed.

Lemma empty_sequence_erases_default_witness :
  get "displayName"
    (buildProfile [] (VStr "jane")
       (mkExtended VUndef VUndef [("displayName", VArr [])]))
  = VUndef.
Proof.
  refine (empty_sequence_erases_default [] (VStr "jane")
            (mkExtended VUndef VUndef [("displayName", VArr [])])
            "displayName" _ eq_refl _ eq_refl).
  - simpl; auto.
  - not_in.
Defined.

Lemma lookup_delete_ext (x : string) (a1 a2 : obj) :
  (forall k, lookup k a1 = lookup k a2) ->
  forall k, lookup k (delete x a1) = lookup k (delete x a2).
Proof.
  intros H k. destruct (string_dec k x) as [->|Hne].
  - now rewrite !lookup_delete_eq.
  - now rewrite !lookup_delete_neq.
Qed.

Lemma lookup_deleteAll_ext (ks : list string) (a1 a2 : obj) :
  (forall k, lookup k a1 = lookup k a2) ->
  forall k, lookup k (deleteAll ks a1) = lookup k (deleteAll ks a2).
Proof.
  revert a1 a2. induction ks as [|x ks IH]; intros a1 a2 H k; [apply H|].
  unfold deleteAll in *. simpl. apply IH. now apply lookup_delete_ext.
Qed.

(** X22: the profile depends on the attributes only through the value each
    name holds, not on the order in which they were listed, and not on the
    PGTIOU: two validations with the same id and the same value under
    every attribute name give profiles with the same value under every
    name. *)
Theorem profile_order_independent (pm : list (string * string))
    (username id : value) (pgtiou1 pgtiou2 : value) (a1 a2 : obj) :
  (forall k, lookup k a1 = lookup k a2) ->
  forall k,
    lookup k (buildProfile pm username (mkExtended id pgtiou1 a1))
    = lookup k (buildProfile pm username (mkExtended id pgtiou2 a2)).
Proof.
  intros H k.
  assert (Hread : forall f, attributeRead pm a1 f = attributeRead pm a2 f).
  { intros f. unfold attributeRead, get.
    now rewrite (lookup_deleteAll_ext _ a1 a2 H). }
  assert (Hmapped : mappedProfile pm username (mkExtended id pgtiou1 a1)
                    = mappedProfile pm username (mkExtended id pgtiou2 a2)).
  { unfold mappedProfile. cbn [ext_attributes ext_id].
    rewrite !Hread. unfold get. now rewrite (H "displayName"). }
  rewrite !buildProfile_eq, !lookup_copyRemaining, !remaining_eq.
  cbn [ext_attributes].
  rewrite (lookup_deleteAll_ext _ a1 a2 H), Hmapped. reflexivity.
Qed.

Lemma profile_order_independent_witness :
  lookup "emails"
    (buildProfile [] (VStr "jane")
       (mkExtended VUndef VUndef
          [("emails", VStr "j@x.com"); ("dept", VStr "IT")]))
  = lookup "emails"
      (buildProfile [] (VStr "jane")
         (mkExtended VUndef (VStr "PGTIOU-1")
            [("dept", VStr "IT"); ("emails", VStr "j@x.com")])).
Proof.
  refine (profile_order_independent [] (VStr "jane") VUndef VUndef
            (VStr "PGTIOU-1")
            [("emails", VStr "j@x.com"); ("dept", VStr "IT")]
            [("dept", VStr "IT"); ("emails", VStr "j@x.com")] _ "emails").
  intros k. simpl.
  destruct (String.eqb k "emails") eqn:E1; destruct (String.eqb k "dept") eqn:E2;
    try reflexivity.
  apply String.eqb_eq in E1, E2. congruence.
Defined.

(** ** What the retry redirect leaves alone *)

Lemma replaceTicket_query_none (tok : string) (ps : list (string * string))
    (c : ascii) :
  forallb otherParam ps = true ->
  replaceTicket tok (String c (renderQuery ps)) = String c (renderQuery ps).
Proof.
  intros Hps. revert c. induction ps as [|p ps IH]; intros c.
  - rewrite replaceTicket_eq. unfold matchTicket. cbn [renderQuery stripPrefix].
    now destruct (Ascii.eqb c "?" || Ascii.eqb c "&").
  - simpl in Hps. apply andb_prop in Hps. destruct Hps as [Hp Hps].
    destruct ps as [|p' ps].
    + cbn [renderQuery]. rewrite replaceTicket_eq.
      pose proof (matchTicket_param c p "" Hp) as Hm.
      rewrite append_empty_r in Hm. rewrite Hm.
      pose proof (replaceTicket_skip tok (renderParam p) ""
                    (noAmp_param p (proj1 (otherParam_inv p Hp)))) as Hk.
      rewrite append_empty_r in Hk. rewrite Hk.
      now rewrite append_empty_r.
    + rewrite renderQuery_cons by discriminate.
      rewrite replaceTicket_eq, matchTicket_param by exact Hp.
      rewrite replaceTicket_skip
        by (apply noAmp_param; now apply otherParam_inv).
      change ("&" ++ renderQuery (p' :: ps))
        with (String "&" (renderQuery (p' :: ps))).
      now rewrite (IH Hps).
Qed.

(** X23: when the text of the request target has no [ticket] parameter
    and no marker, being written as plain parameters of other names, the
    retry URL is the request target itself: the redirect goes back to the
    same URL, ticket and all if the ticket was written in another way. *)
Theorem retryUrl_without_ticket_text (token : Z) (path : string)
    (ps : list (string * string)) :
  noSep path = true ->
  forallb otherParam ps = true ->
  retryUrl (renderUrl path ps) token = renderUrl path ps.
Proof.
  intros Hp Hps. unfold retryUrl.
  rewrite removeRetry_url_none by (auto using otherParam_plain).
  unfold renderUrl. rewrite replaceTicket_skip by now apply noSep_noAmp.
  change ("?" ++ renderQuery ps) with (String "?" (renderQuery ps)).
  now rewrite replaceTicket_query_none.
Qed.

Lemma retryUrl_without_ticket_text_witness :
  retryUrl "/app?a=1&%74icket=ST-1" 28500000 = "/app?a=1&%74icket=ST-1".
Proof.
  exact (retryUrl_without_ticket_text 28500000 "/app"
           [("a", "1"); ("%74icket", "ST-1")] eq_refl eq_refl).
Defined.

(** ** A request without session storage *)

(** X24: on a request without session storage a successful validation
    throws at the first session write: after the call of [cas.validate]
    the verify callback is not called and none of passport's actions is
    taken, whether a PGT URL is configured or not. *)
Theorem no_session_throws
    (url_parse : string -> parsedUrl) (url_format : urlObject -> string)
    (StringToNumber : string -> option Z) (self : CasStrategy) (req : request)
    (r : validation) (d : value * value * value) :
  _passport req = true ->
  truthy (ticketOf url_parse req) = true ->
  truthy (v_err r) = false ->
  session req = None ->
  play r d (authenticate url_parse url_format StringToNumber self req)
  = [ CallValidate (ticketOf url_parse req) (service url_parse url_format req);
      Uncaught "TypeError" ].
Proof.
  intros Hp Ht He Hs.
  rewrite authenticate_with_ticket by assumption.
  cbn [play]. now rewrite validated_no_session.
Qed.

Lemma no_session_throws_witness :
  play (demoValidation []) (VNull, VStr "jane", VUndef)
    (authenticate plainParse plainFormat plainToNumber demoStrategy
       {| _passport := true;
          originalUrl := Some "/app?ticket=ST-1";
          url := "/app?ticket=ST-1";
          headers := [("host", "app.example.com")];
          protocol := Some "https";
          query := Some [("ticket", VStr "ST-1")];
          session := None |})
  = [ CallValidate (VStr "ST-1") "https://app.example.com/app";
      Uncaught "TypeError" ].
Proof.
  exact (no_session_throws plainParse plainFormat plainToNumber demoStrategy
           {| _passport := true;
              originalUrl := Some "/app?ticket=ST-1";
              url := "/app?ticket=ST-1";
              headers := [("host", "app.example.com")];
              protocol := Some "https";
              query := Some [("ticket", VStr "ST-1")];
              session := None |}
           (demoValidation []) (VNull, VStr "jane", VUndef)
           eq_refl eq_refl eq_refl eq_refl).
Defined.

(** X26: on a request for which the host set no [req.query], a failed
    validation throws at the read of the retry marker: after the call of
    [cas.validate] there is no redirect and no call of [fail]. *)
Theorem no_query_throws
    (url_parse : string -> parsedUrl) (url_format : urlObject -> string)
    (StringToNumber : string -> option Z) (self : CasStrategy) (req : request)
    (r : validation) (d : value * value * value) :
  _passport req = true ->
  truthy (ticketOf url_parse req) = true ->
  truthy (v_err r) = true ->
  query req = None ->
  play r d (authenticate url_parse url_format StringToNumber self req)
  = [ CallValidate (ticketOf url_parse req) (service url_parse url_format req);
      Uncaught "TypeError" ].
Proof.
  intros Hp Ht He Hq.
  rewrite authenticate_with_ticket by assumption.
  cbn [play]. unfold validated. now rewrite He, Hq.
Qed.

Lemma no_query_throws_witness :
  play (demoFailure 1710000000000) (VNull, VStr "jane", VUndef)
    (authenticate plainParse plainFormat plainToNumber demoStrategy
       {| _passport := true;
          originalUrl := Some "/app?ticket=ST-1";
          url := "/app?ticket=ST-1";
          headers := [("host", "app.example.com")];
          protocol := Some "https";
          query := None;
          session := Some [] |})
  = [ CallValidate (VStr "ST-1") "https://app.example.com/app";
      Uncaught "TypeError" ].
Proof.
  exact (no_query_throws plainParse plainFormat plainToNumber demoStrategy
           {| _passport := true;
              originalUrl := Some "/app?ticket=ST-1";
              url := "/app?ticket=ST-1";
              headers := [("host", "app.example.com")];
              protocol := Some "https";
              query := None;
              session := Some [] |}
           (demoFailure 1710000000000) (VNull, VStr "jane", VUndef)
           eq_refl eq_refl eq_refl eq_refl).
Defined.
